(** * Face_AI: the verification engine and its request handlers

    A shallow embedding of [face_attendance_ai/face_engine.py] and
    [face_attendance_ai/main.py].

    Conventions of the model
    - A Python [str] is a [string]; characters are the code points below 256.
    - A Python [float] is the rational number ([Q]) it denotes. Comparisons
      are exact. Where the source computes with floats (the subtraction and
      the product of the confidence) every operation is followed by the
      rounding to IEEE 754 binary64, nearest with ties to even ([b64]); a
      rational that is no binary64 number, such as the decimal 0.1, stands
      for the nearest one there. Overflow, infinities and NaN are not
      modelled.
    - The file system is a finite map from directory paths to the entries of
      the directory in the order [os.listdir] yields them; file names are
      compared byte for byte (a case-sensitive file system).
    - The calls into the outside world ([DeepFace.verify], [capture_face],
      [basic_spoof_check], [log_verification], [shutil.copy2], the upload)
      are answered by a [World]; every such call is recorded in a trace.
    - Of the decorator [@limiter.limit] the check of its [request] argument
      is modelled, the counting of requests per minute is not: a request that
      the limiter turns down with status 429 is no run of the handler.
    - [logger.info], [logger.warning] and [logger.error] do not influence
      control flow and are left out; [print] in the engine is recorded. *)

From Stdlib Require Import ZArith QArith Qround Qpower Lqa Ascii String List Lia.
From stdpp Require Import gmap strings list.

Local Open Scope string_scope.
Local Open Scope list_scope.

(** ** Python string methods used by the source *)

Module Py.

Definition code (c : ascii) : N := N_of_ascii c.

(** [str.isspace] on one code point below 256. *)
Definition is_space (c : ascii) : bool :=
  let n := code c in
  (((9 <=? n) && (n <=? 13)) || ((28 <=? n) && (n <=? 32))
   || (n =? 133) || (n =? 160))%N.

Fixpoint lstrip (s : string) : string :=
  match s with
  | EmptyString => EmptyString
  | String c r => if is_space c then lstrip r else s
  end.

Fixpoint rstrip (s : string) : string :=
  match s with
  | EmptyString => EmptyString
  | String c r =>
      match rstrip r with
      | EmptyString => if is_space c then EmptyString else String c EmptyString
      | r' => String c r'
      end
  end.

(** [s.strip()] *)
Definition strip (s : string) : string := rstrip (lstrip s).

(** [s.replace(old, new)] for one-character [old] and [new]. *)
Fixpoint replace (old new : ascii) (s : string) : string :=
  match s with
  | EmptyString => EmptyString
  | String c r => String (if Ascii.eqb c old then new else c) (replace old new r)
  end.

Definition lower_char (c : ascii) : ascii :=
  let n := code c in
  if (((65 <=? n) && (n <=? 90))
      || ((192 <=? n) && (n <=? 222) && negb (n =? 215)))%N
  then ascii_of_N (n + 32) else c.

(** [s.lower()] *)
Fixpoint lower (s : string) : string :=
  match s with
  | EmptyString => EmptyString
  | String c r => String (lower_char c) (lower r)
  end.

(** [s.endswith(suffix)] *)
Fixpoint endswith (s suffix : string) : bool :=
  String.eqb s suffix
  || match s with
     | EmptyString => false
     | String _ r => endswith r suffix
     end.

(** [s.endswith(tuple)] *)
Definition endswith_any (s : string) (suffixes : list string) : bool :=
  existsb (endswith s) suffixes.

(** [s.startswith(prefix)] *)
Definition startswith (s pre : string) : bool := String.prefix pre s.

(** [s.rfind(c)]: the last index of [c], [None] for Python's -1. *)
Fixpoint rfind (c : ascii) (s : string) : option nat :=
  match s with
  | EmptyString => None
  | String a r =>
      match rfind c r with
      | Some i => Some (S i)
      | None => if Ascii.eqb a c then Some 0%nat else None
      end
  end.

(** [s[:n]] and [s[n:]] *)
Fixpoint take (n : nat) (s : string) : string :=
  match n, s with
  | S k, String c r => String c (take k r)
  | _, _ => EmptyString
  end.

Fixpoint drop (n : nat) (s : string) : string :=
  match n, s with
  | S k, String _ r => drop k r
  | _, _ => s
  end.

Fixpoint all_chars (p : ascii -> bool) (s : string) : bool :=
  match s with
  | EmptyString => true
  | String c r => p c && all_chars p r
  end.

End Py.

(** ** [os.path] on POSIX *)

Module OsPath.

(** [os.path.join(a, p)] for two components. *)
Definition join (a p : string) : string :=
  if Py.startswith p "/" then p
  else if String.eqb a EmptyString || Py.endswith a "/" then a +:+ p
  else a +:+ "/" +:+ p.

(** [os.path.splitext(p)]: the extension starts at the last dot of the last
    component, unless only dots precede it there. *)
Definition splitext (p : string) : string * string :=
  let sepIndex := Py.rfind "/" p in
  let dotIndex := Py.rfind "." p in
  let filenameIndex := match sepIndex with Some i => S i | None => 0%nat end in
  match dotIndex with
  | Some d =>
      if (filenameIndex <=? d)%nat
         && negb (Py.all_chars (Ascii.eqb ".")
                    (Py.take (d - filenameIndex) (Py.drop filenameIndex p)))
      then (Py.take d p, Py.drop d p)
      else (p, EmptyString)
  | None => (p, EmptyString)
  end.

End OsPath.

(** ** Exceptions, dictionaries and the outside world *)

Inductive exn : Type :=
| HTTPException (status_code : Z) (detail : string)
| FileNotFoundError (msg : string)
| Exception (msg : string).

Inductive outcome (A : Type) : Type :=
| Ret (a : A)
| Raise (e : exn).
Arguments Ret {A} a.
Arguments Raise {A} e.

(** The two keys of [DeepFace.verify]'s answer that the engine reads. *)
Record deepface_result : Type :=
  { df_verified : bool; df_distance : Q }.

(** The dictionary built by [verify_face] and by the [/api/verify] handler;
    [error = None] stands for a dictionary without the key ["error"]. *)
Record verify_dict : Type :=
  { verified : bool;
    matched_with : option string;
    score : option Q;
    error : option string }.


(** [ClientVerifyResponse], the answer of [/verify-face]. *)
Record ClientVerifyResponse : Type :=
  { c_match : bool; c_confidence : Q }.

(** [RegisterResponse] *)
Record RegisterResponse : Type :=
  { success : bool; message : string; name : option string }.

(** One entry of [/api/registered]. *)
Record face_entry : Type :=
  { face_name : string; face_filename : string }.

(** Calls that leave the process, in the order they happen. *)
Inductive event : Type :=
| EvCapture
| EvSpoofCheck (path : string)
| EvCompare (img1_path img2_path model_name detector_backend : string)
| EvPrintError (person : string) (e : exn)
| EvAudit (identity : option string) (is_verified : bool) (distance : option Q)
| EvCopy (src dst : string)
| EvSaveUpload
| EvUnlink (path : string).

(** The constants of [constants.py] that the two modules import. *)
Record Constants : Type :=
  { REGISTERED_FACES_DIR : string;
    FACE_DISTANCE_THRESHOLD : Q;
    FACE_MODEL : string;
    DETECTOR_BACKEND : string;
    SUPPORTED_IMAGE_FORMATS : list string }.

(** What the collaborators answer: the embedding oracle, the camera, the
    spoof gate, the audit log writer, the file copy and the upload;
    [w_place d l f] is the position at which the file system lists a new
    entry [f] of the directory [d] that lists [l]. *)
Record World : Type :=
  { w_verify : string -> string -> string -> string -> outcome deepface_result;
    w_capture : outcome string;
    w_spoof : string -> outcome bool;
    w_log : option string -> bool -> option Q -> outcome unit;
    w_copy : string -> string -> outcome unit;
    w_place : string -> list string -> string -> nat;
    w_upload : outcome string }.

Record state : Type :=
  { fs : gmap string (list string);
    trace : list event }.

(** ** The monad of the handlers: state, trace and exceptions *)

Definition M (A : Type) : Type := state -> outcome A * state.

Definition ret {A} (a : A) : M A := fun s => (Ret a, s).

Definition raise {A} (e : exn) : M A := fun s => (Raise e, s).

Definition bind {A B} (m : M A) (k : A -> M B) : M B :=
  fun s =>
    match m s with
    | (Ret a, s') => k a s'
    | (Raise e, s') => (Raise e, s')
    end.

(** [try: m except ... as e: h e] *)
Definition catch {A} (m : M A) (h : exn -> M A) : M A :=
  fun s =>
    match m s with
    | (Ret a, s') => (Ret a, s')
    | (Raise e, s') => h e s'
    end.

(** [try: m finally: f] *)
Definition finally {A} (m : M A) (f : M unit) : M A :=
  fun s =>
    match m s with
    | (r, s') =>
        match f s' with
        | (Ret _, s'') => (r, s'')
        | (Raise e, s'') => (Raise e, s'')
        end
    end.

Definition emit (ev : event) : M unit :=
  fun s => (Ret tt, {| fs := fs s; trace := trace s ++ [ev] |}).

Definition lift {A} (o : outcome A) : M A := fun s => (o, s).

Declare Scope py_scope.
Delimit Scope py_scope with py.
Notation "x <- m ;; k" := (bind m (fun x => k))
  (at level 100, m at next level, right associativity) : py_scope.
Notation "m ;;; k" := (bind m (fun _ => k))
  (at level 100, right associativity) : py_scope.

Definition Qltb (x y : Q) : bool := negb (Qle_bool y x).

Definition is_nil {A} (l : list A) : bool :=
  match l with [] => true | _ => false end.

(** [c in s] for a character. *)
Fixpoint contains (c : ascii) (s : string) : bool :=
  match s with
  | EmptyString => false
  | String a r => Ascii.eqb a c || contains c r
  end.

(** ** The file system *)

(** [os.path.exists(d)] for a directory path. *)
Definition os_path_exists (d : string) : M bool :=
  fun s => (Ret (bool_decide (is_Some (fs s !! d))), s).

(** [os.listdir(d)] *)
Definition os_listdir (d : string) : M (list string) :=
  fun s =>
    match fs s !! d with
    | Some l => (Ret l, s)
    | None => (Raise (FileNotFoundError d), s)
    end.

(** [os.path.exists(f"{d}/{f}")] for a file name [f] without separator. *)
Definition os_path_exists_in (d f : string) : M bool :=
  fun s =>
    (Ret match fs s !! d with
         | Some l => bool_decide (f ∈ l)
         | None => false
         end, s).

(** ** Floating point *)

(** The integer nearest to [q], the even one of the two on a tie. *)
Definition rne (q : Q) : Z :=
  let f := Qfloor q in
  let r := (q - inject_Z f)%Q in
  if Qltb r (1 # 2) then f
  else if Qltb (1 # 2) r then (f + 1)%Z
  else if Z.even f then f else (f + 1)%Z.

(** The exponent [e] of a positive [q]: [2 ^ e <= q < 2 ^ (e + 1)]. *)
Definition binade (q : Q) : Z :=
  let e0 := (Z.log2 (Qnum q) - Z.log2 (Zpos (Qden q)))%Z in
  if Qle_bool (2 ^ e0) q then e0 else (e0 - 1)%Z.

(** Rounding of a positive number to binary64: 53 significant bits, the
    exponent not below -1022 (below it the numbers are subnormal). *)
Definition b64_pos (q : Q) : Q :=
  let u := (2 ^ (Z.max (binade q) (-1022) - 52))%Q in
  (inject_Z (rne (q / u)) * u)%Q.

(** The binary64 number nearest to [q], ties to even. *)
Definition b64 (q : Q) : Q :=
  if Qltb 0 q then b64_pos q
  else if Qltb q 0 then (- b64_pos (- q))%Q
  else 0%Q.

(** [max(a, b)] and [min(a, b)] of Python on numbers. *)
Definition py_max (a b : Q) : Q := if Qltb a b then b else a.
Definition py_min (a b : Q) : Q := if Qltb b a then b else a.

(** [round(x, 1)] on a float: the decimal with one digit after the point
    that is nearest to the value of [x], ties to the even neighbour. The
    float returned is the one nearest to that decimal, which is also the
    number the JSON answer shows; the decimal stands for it. *)
Definition round1 (x : Q) : Q :=
  let y := (x * 10)%Q in
  let f := Qfloor y in
  let r := (y - inject_Z f)%Q in
  let n := if Qltb r (1 # 2) then f
           else if Qltb (1 # 2) r then (f + 1)%Z
           else if Z.even f then f else (f + 1)%Z in
  (n # 10)%Q.

Local Open Scope py_scope.

Section Handlers.

Variable K : Constants.
Variable W : World.

(** *** The collaborators of [utils.py] and the libraries, as calls *)

Definition DeepFace_verify (img1_path img2_path model_name detector_backend : string)
  : M deepface_result :=
  emit (EvCompare img1_path img2_path model_name detector_backend) ;;;
  lift (w_verify W img1_path img2_path model_name detector_backend).

(** Modelled from the spec: [utils.py] is not part of the sources at hand.
    [capture_face] takes a picture and returns its path, or raises. *)
Definition capture_face : M string :=
  emit EvCapture ;;; lift (w_capture W).

(** Modelled from the spec: the Spoof Gate [isLive], a check of the one image
    that has no effect of its own and runs before any embedding work; its
    answer is the world's. *)
Definition basic_spoof_check (path : string) : M bool :=
  emit (EvSpoofCheck path) ;;; lift (w_spoof W path).

(** Modelled from the spec: the Audit Log's [record(identity_or_none,
    verified, distance_or_none)]; one record is appended when the call
    returns. *)
Definition log_verification (identity : option string) (is_verified : bool)
    (distance : option Q) : M unit :=
  lift (w_log W identity is_verified distance) ;;;
  emit (EvAudit identity is_verified distance).

(** [shutil.copy2(src, f"{d}/{f}")] for a file name [f] without separator.
    Python refuses a path with a NUL character before it asks the system
    ([ValueError], an [Exception] for the handlers). Otherwise the answer is
    the system's; after a copy that succeeded the entry [f] is in [d]: an
    entry of that name is overwritten and keeps its place, a new one is
    listed where the file system puts it, the others keeping their order. *)
Definition shutil_copy2 (src d f : string) : M unit :=
  emit (EvCopy src (d +:+ "/" +:+ f)) ;;;
  if contains Ascii.zero src || contains Ascii.zero f
  then raise (Exception "embedded null byte")
  else
    lift (w_copy W src (d +:+ "/" +:+ f)) ;;;
    fun s =>
      match fs s !! d with
      | Some l =>
          (Ret tt,
           {| fs := <[d := if bool_decide (f ∈ l) then l
                           else (List.firstn (w_place W d l f) l
                                 ++ f :: List.skipn (w_place W d l f) l)%list]> (fs s);
              trace := trace s |})
      | None => (Raise (FileNotFoundError (d +:+ "/" +:+ f)), s)
      end.

(** The [with tempfile.NamedTemporaryFile ...] block: the path written. *)
Definition save_upload : M string :=
  emit EvSaveUpload ;;; lift (w_upload W).

Definition os_unlink (path : string) : M unit := emit (EvUnlink path).

(** *** face_engine.py *)

Definition no_match : verify_dict :=
  {| verified := false; matched_with := None; score := None; error := None |}.

(** One turn of [for person in os.listdir(known_faces_dir)]: [Some d] when
    the function returns [d] from inside the loop, [None] when the loop goes
    on with the next entry. *)
Definition verify_face_body (input_path known_faces_dir model person : string)
  : M (option verify_dict) :=
  if negb (Py.endswith_any (Py.lower person) (SUPPORTED_IMAGE_FORMATS K))
  then ret None
  else
    let ref_path := OsPath.join known_faces_dir person in
    catch
      (result <- DeepFace_verify input_path ref_path model (DETECTOR_BACKEND K) ;;
       if df_verified result
          && Qltb (df_distance result) (FACE_DISTANCE_THRESHOLD K)
       then ret (Some {| verified := true;
                         matched_with := Some person;
                         score := Some (df_distance result);
                         error := None |})
       else ret None)
      (fun e => emit (EvPrintError person e) ;;; ret None).

Fixpoint verify_face_loop (input_path known_faces_dir model : string)
    (entries : list string) : M verify_dict :=
  match entries with
  | [] => ret no_match
  | person :: rest =>
      r <- verify_face_body input_path known_faces_dir model person ;;
      match r with
      | Some d => ret d
      | None => verify_face_loop input_path known_faces_dir model rest
      end
  end.

Definition verify_face (input_path known_faces_dir model : string) : M verify_dict :=
  entries <- os_listdir known_faces_dir ;;
  verify_face_loop input_path known_faces_dir model entries.

(** *** main.py *)

(** [@limiter.limit(...)] of slowapi around a handler. The wrapper takes the
    argument passed for the parameter named [request]; it raises when that
    is no [starlette.requests.Request] and runs the handler otherwise. For
    [verify] and [verify_face_from_photo] the parameter [request] is the
    [Request]: the wrapper runs them, and they are modelled by their bodies. *)
Definition limiter_limit {A} (request_is_Request : bool) (handler : M A) : M A :=
  if request_is_Request then handler
  else raise (Exception
    "parameter `request` must be an instance of starlette.requests.Request").

(** [not os.path.exists(REGISTERED_FACES_DIR) or
     not os.listdir(REGISTERED_FACES_DIR)] *)
Definition no_registered_faces : M bool :=
  present <- os_path_exists (REGISTERED_FACES_DIR K) ;;
  if negb present then ret true
  else
    entries <- os_listdir (REGISTERED_FACES_DIR K) ;;
    ret (is_nil entries).

Definition spoof_rejected : verify_dict :=
  {| verified := false; matched_with := None; score := Some 0%Q; error := None |}.

Definition internal_error : verify_dict :=
  {| verified := false; matched_with := None; score := Some 0%Q;
     error := Some "Internal server error" |}.

(** [POST /api/verify] *)
Definition verify : M verify_dict :=
  catch
    (unavailable <- no_registered_faces ;;
     if unavailable
     then raise (HTTPException 400
       "No registered faces found. Please add faces to images/registered/ directory.")
     else
       path <- capture_face ;;
       live <- basic_spoof_check path ;;
       if negb live then ret spoof_rejected
       else
         result <- verify_face path (REGISTERED_FACES_DIR K) (FACE_MODEL K) ;;
         log_verification (matched_with result) (verified result) (score result) ;;;
         ret result)
    (fun e =>
       match e with
       | HTTPException _ _ => raise e
       | FileNotFoundError _ =>
           raise (HTTPException 500 "Required files or directories not found")
       | Exception _ => ret internal_error
       end).

(** [clean_name] of [register_face] *)
Definition clean_name (name : string) : string :=
  Py.replace "\" "_" (Py.replace "/" "_" (Py.replace " " "_" (Py.strip name))).

(** The body of [register_face], [request_name] being [request.name]. *)
Definition register_face_body (request_name : string) : M RegisterResponse :=
  catch
    (if String.eqb request_name EmptyString || (String.length (Py.strip request_name) =? 0)%nat
     then raise (HTTPException 400 "Name cannot be empty")
     else
       let clean := clean_name request_name in
       taken <- os_path_exists_in "images/registered" (clean +:+ ".jpg") ;;
       if taken
       then raise (HTTPException 400 ("Face already registered for " +:+ request_name))
       else
         captured_path <- capture_face ;;
         live <- basic_spoof_check captured_path ;;
         if negb live
         then raise (HTTPException 400
           "Face capture failed spoof detection. Please try again with better lighting.")
         else
           shutil_copy2 captured_path "images/registered" (clean +:+ ".jpg") ;;;
           ret {| success := true;
                  message := "Face registered successfully for " +:+ request_name;
                  name := Some request_name |})
    (fun e =>
       match e with
       | HTTPException _ _ => raise e
       | _ => raise (HTTPException 500 "Registration failed due to internal error")
       end).

(** [POST /api/register]: the handler that the route serves is the body
    wrapped by [@limiter.limit("3/minute")]. Its parameter [request] is the
    pydantic [RegisterRequest] (the [Request] is the parameter [req]), so the
    argument that the wrapper checks is no [Request]. *)
Definition register_face (request_name : string) : M RegisterResponse :=
  limiter_limit false (register_face_body request_name).

(** The loop of [list_registered_faces]. *)
Definition face_entries (filenames : list string) : list face_entry :=
  flat_map
    (fun filename =>
       if Py.endswith_any (Py.lower filename) [".jpg"; ".jpeg"; ".png"]
       then [ {| face_name := Py.replace "_" " " (fst (OsPath.splitext filename));
                 face_filename := filename |} ]
       else [])
    filenames.

(** [GET /api/registered]: the list and the ["count"] key when present. *)
Definition list_registered_faces : M (list face_entry * option nat) :=
  catch
    (present <- os_path_exists "images/registered" ;;
     if negb present then ret ([], None)
     else
       filenames <- os_listdir "images/registered" ;;
       let faces := face_entries filenames in
       ret (faces, Some (length faces)))
    (fun _ => raise (HTTPException 500 "Failed to list registered faces")).

Definition client_no_match : ClientVerifyResponse :=
  {| c_match := false; c_confidence := 0%Q |}.

(** [max(0.0, min(100.0, (1 - score) * 100))]: the difference and the
    product are rounded to binary64, [max] and [min] select. The score is a
    float; [b64 score] is the score itself when it is a binary64 number. *)
Definition confidence_of (score : Q) : Q :=
  py_max 0 (py_min 100 (b64 (b64 (1 - b64 score) * 100))).

(** [POST /verify-face] *)
Definition verify_face_from_photo (content_type : option string)
  : M ClientVerifyResponse :=
  catch
    (is_image <- match content_type with
                 | Some ct => ret (Py.startswith ct "image/")
                 | None => raise (Exception "'NoneType' object has no attribute 'startswith'")
                 end ;;
     if negb is_image
     then raise (HTTPException 400 "File must be an image")
     else
       unavailable <- no_registered_faces ;;
       if unavailable
       then raise (HTTPException 400 "No registered employees found in system")
       else
         temp_path <- save_upload ;;
         finally
           (live <- basic_spoof_check temp_path ;;
            if negb live then ret client_no_match
            else
              result <- verify_face temp_path (REGISTERED_FACES_DIR K) (FACE_MODEL K) ;;
              if verified result
              then
                match score result with
                | Some sc =>
                    let confidence := confidence_of sc in
                    log_verification (matched_with result) true (score result) ;;;
                    ret {| c_match := true; c_confidence := round1 confidence |}
                | None => raise (Exception "unsupported operand type(s) for -")
                end
              else
                log_verification None false None ;;;
                ret client_no_match)
           (os_unlink temp_path))
    (fun e =>
       match e with
       | HTTPException _ _ => raise e
       | _ => raise (HTTPException 500 "Face verification failed")
       end).

End Handlers.


(** The status line FastAPI sends for the outcome of a handler. *)
Definition http_status {A} (o : outcome A) : Z :=
  match o with
  | Ret _ => 200
  | Raise (HTTPException c _) => c
  | Raise _ => 500
  end.

(** ** Concrete constants and worlds *)

(** Modelled from the spec: [constants.py] is not part of the sources at hand.
    The threshold is the spec's default 0.4, the formats are its allow-list
    [.jpg], [.jpeg], [.png], the directory is the one [main.py] names in its
    messages and paths; model and detector are those of [debug_test.py]. *)
Definition spec_constants : Constants :=
  {| REGISTERED_FACES_DIR := "images/registered";
     FACE_DISTANCE_THRESHOLD := 0.4%Q;
     FACE_MODEL := "Facenet";
     DETECTOR_BACKEND := "opencv";
     SUPPORTED_IMAGE_FORMATS := [".jpg"; ".jpeg"; ".png"] |}.

(** A world whose camera and upload deliver a file, whose spoof gate answers
    [live], whose log and copy succeed, whose file system lists a new entry
    last, and whose oracle answers by a table from reference paths to answers
    (an exception for unlisted paths). *)
Definition table_world (live : bool) (table : list (string * outcome deepface_result))
  : World :=
  {| w_verify := fun _ img2 _ _ =>
       match List.find (fun kv => String.eqb (fst kv) img2) table with
       | Some kv => snd kv
       | None => Raise (Exception "Face could not be detected")
       end;
     w_capture := Ret "images/captured/capture.jpg";
     w_spoof := fun _ => Ret live;
     w_log := fun _ _ _ => Ret tt;
     w_copy := fun _ _ => Ret tt;
     w_place := fun _ l _ => length l;
     w_upload := Ret "/tmp/upload.jpg" |}.

Definition answer (v : bool) (d : Q) : outcome deepface_result :=
  Ret {| df_verified := v; df_distance := d |}.

Definition disk (entries : list string) : state :=
  {| fs := {[ "images/registered" := entries ]}; trace := [] |}.

Definition no_disk : state := {| fs := ∅; trace := [] |}.

(** ** Reading a trace *)

Definition is_compare (ev : event) : bool :=
  match ev with EvCompare _ _ _ _ => true | _ => false end.

Definition is_audit (ev : event) : bool :=
  match ev with EvAudit _ _ _ => true | _ => false end.

(** The calls of the embedding oracle and the audit records in a trace. *)
Definition oracle_calls (t : list event) : list event := List.filter is_compare t.
Definition audit_records (t : list event) : list event := List.filter is_audit t.

(** The events a computation adds when it is run in [s]. *)
Definition events_of {A} (m : M A) (s : state) : list event :=
  List.skipn (length (trace s)) (trace (snd (m s))).

(** ** Vocabulary of the claims about the engine *)

(** The state with more events at the end of its trace. *)
Definition add_events (s : state) (evs : list event) : state :=
  {| fs := fs s; trace := trace s ++ evs |}.

Section Vocabulary.

Variable K : Constants.
Variable W : World.
Variables input dir model : string.

(** The entry passes the extension filter of the loop. *)
Definition is_identity (person : string) : bool :=
  Py.endswith_any (Py.lower person) (SUPPORTED_IMAGE_FORMATS K).

Definition compare_event (person : string) : event :=
  EvCompare input (OsPath.join dir person) model (DETECTOR_BACKEND K).

Definition oracle_answer (person : string) : outcome deepface_result :=
  w_verify W input (OsPath.join dir person) model (DETECTOR_BACKEND K).

(** The oracle reports [verified] and a distance below the threshold. *)
Definition oracle_accepts (person : string) : bool :=
  match oracle_answer person with
  | Ret r => df_verified r && Qltb (df_distance r) (FACE_DISTANCE_THRESHOLD K)
  | Raise _ => false
  end.

(** What the loop does for an entry it passes over. *)
Definition passed_events (person : string) : list event :=
  if is_identity person
  then compare_event person
       :: match oracle_answer person with
          | Ret _ => []
          | Raise e => [EvPrintError person e]
          end
  else [].

(** What the loop can return for a listing: no match, or one of its
    identities, accepted by the oracle, with the distance reported. *)
Definition engine_verdict (entries : list string) (d : verify_dict) : Prop :=
  d = no_match
  \/ exists person r,
       In person entries /\ is_identity person = true
       /\ oracle_answer person = Ret r
       /\ df_verified r = true
       /\ (df_distance r < FACE_DISTANCE_THRESHOLD K)%Q
       /\ d = {| verified := true; matched_with := Some person;
                 score := Some (df_distance r); error := None |}.

End Vocabulary.

(** ** Vocabulary of the claims about the handlers *)

(** The [except] clauses of [verify] and of [verify_face_from_photo]. *)
Definition verify_except (e : exn) : M verify_dict :=
  match e with
  | HTTPException _ _ => raise e
  | FileNotFoundError _ =>
      raise (HTTPException 500 "Required files or directories not found")
  | Exception _ => ret internal_error
  end.

Definition photo_except (e : exn) : M ClientVerifyResponse :=
  match e with
  | HTTPException _ _ => raise e
  | _ => raise (HTTPException 500 "Face verification failed")
  end.

(** The check [not os.path.exists(...) or not os.listdir(...)] lets the
    request through. *)
Definition gallery_check_passes (K : Constants) (s : state) : Prop :=
  fst (no_registered_faces K s) = Ret false.

(** The entries of the gallery directory that the engine compares. *)
Definition gallery (K : Constants) (s : state) : list string :=
  match fs s !! REGISTERED_FACES_DIR K with
  | Some entries => List.filter (is_identity K) entries
  | None => []
  end.

(** Presence of the two optional fields follows [verified]. *)
Definition result_invariant (d : verify_dict) : Prop :=
  (is_Some (matched_with d) <-> verified d = true)
  /\ (is_Some (score d) <-> verified d = true).

(** The request gets as far as the scan of the gallery. *)
Definition scan_runs_verify (K : Constants) (W : World) (s : state) : Prop :=
  gallery_check_passes K s
  /\ exists path, w_capture W = Ret path /\ w_spoof W path = Ret true.

Definition scan_runs_photo (K : Constants) (W : World) (content_type : option string)
    (s : state) : Prop :=
  (exists ct, content_type = Some ct /\ Py.startswith ct "image/" = true)
  /\ gallery_check_passes K s
  /\ exists temp, w_upload W = Ret temp /\ w_spoof W temp = Ret true.

(** [log_verification] never raises. *)
Definition log_returns (W : World) : Prop :=
  forall identity is_verified distance,
    w_log W identity is_verified distance = Ret tt.

(** The spec's [clamp(lo, hi, x)]. *)
Definition clamp (lo hi x : Q) : Q :=
  if Qltb x lo then lo else if Qltb hi x then hi else x.

(** ** Vocabulary of the claims about enrollment *)

(** The trimmed name has no underscore, slash or backslash. *)
Definition separator_free (t : string) : bool :=
  negb (contains "_" t) && negb (contains "/" t) && negb (contains "\" t).

(** The trimmed name is made of words separated by single spaces: it is not
    empty, has no white space at either end and no two spaces in a row. *)
Fixpoint no_double_space (t : string) : bool :=
  match t with
  | String a ((String b _) as r) =>
      negb (Ascii.eqb a " " && Ascii.eqb b " ") && no_double_space r
  | _ => true
  end.

Definition single_spaced_words (t : string) : bool :=
  negb (String.eqb t EmptyString) && String.eqb (Py.strip t) t && no_double_space t.

Definition only_dots (t : string) : bool := Py.all_chars (Ascii.eqb ".") t.

(** The character that the three replacements of [clean_name] leave for
    [c]: an underscore for a space, a slash and a backslash. *)
Definition normal_char (c : ascii) : ascii :=
  if Ascii.eqb c " " || Ascii.eqb c "/" || Ascii.eqb c "\" then "_"%char else c.

(** The string with [f] applied to each character. *)
Fixpoint map_chars (f : ascii -> ascii) (s : string) : string :=
  match s with
  | EmptyString => EmptyString
  | String c r => String (f c) (map_chars f r)
  end.

(** The entry of [images/registered] that the body of [register_face]
    names: [f"{clean_name}.jpg"]. *)
Definition registered_file (request_name : string) : string :=
  clean_name request_name +:+ ".jpg".

(** ** test_e001_verification.py *)

(** [test_e001_verification()]: the value the script returns. Its [print]
    calls are left out; the two comparisons run inside [try] blocks. *)
Definition test_e001_verification (K : Constants) (W : World) : M bool :=
  registered_exists <- os_path_exists_in "images/registered" "E001.jpg" ;;
  if negb registered_exists then ret false
  else
    captured_exists <- os_path_exists_in "images/captured" "E001.jpg" ;;
    if negb captured_exists then ret false
    else
      spoof_result <-
        catch (basic_spoof_check W "images/captured/E001.jpg") (fun _ => ret false) ;;
      verification_result <-
        catch
          (result <- verify_face K W "images/captured/E001.jpg" "images/registered"
                       (FACE_MODEL K) ;;
           if verified result
           then match score result with
                | Some _ => ret result
                | None => raise (Exception "unsupported operand type(s) for -")
                end
           else ret result)
          (fun _ => ret no_match) ;;
      ret (spoof_result && verified verification_result).

(** ** Further vocabulary *)

Section MoreVocabulary.

Variable K : Constants.
Variable W : World.
Variables input dir model : string.

(** The first entry of a listing that is an identity the oracle accepts. *)
Definition first_accepted (entries : list string) : option string :=
  List.find (fun person => is_identity K person
                           && oracle_accepts K W input dir model person)
    entries.

(** The dictionary for the identity found, or for none. *)
Definition verdict_of (found : option string) : verify_dict :=
  match found with
  | Some person =>
      match oracle_answer K W input dir model person with
      | Ret r => {| verified := true; matched_with := Some person;
                    score := Some (df_distance r); error := None |}
      | Raise _ => no_match
      end
  | None => no_match
  end.

End MoreVocabulary.

(** The answer of [/verify-face] for a dictionary of the engine. *)
Definition client_answer (d : verify_dict) : ClientVerifyResponse :=
  match score d with
  | Some sc => if verified d
               then {| c_match := true; c_confidence := round1 (confidence_of sc) |}
               else client_no_match
  | None => client_no_match
  end.

(** The camera, the spoof gate and the log raise nothing but plain exceptions:
    no [HTTPException], no [FileNotFoundError]. *)
Definition plain_exception (e : exn) : Prop := exists msg, e = Exception msg.

Definition plain_errors (W : World) : Prop :=
  (forall e, w_capture W = Raise e -> plain_exception e)
  /\ (forall path e, w_spoof W path = Raise e -> plain_exception e)
  /\ (forall identity is_verified distance e,
        w_log W identity is_verified distance = Raise e -> plain_exception e).

(** The extension filter of [list_registered_faces]. *)
Definition is_listed (filename : string) : bool :=
  Py.endswith_any (Py.lower filename) [".jpg"; ".jpeg"; ".png"].

Definition is_unlink (ev : event) : bool :=
  match ev with EvUnlink _ => true | _ => false end.

(** ** Worlds for the examples *)

Definition two_faces : World :=
  table_world true [("images/registered/alice.jpg", answer true 0.3);
                    ("images/registered/bob.jpg", answer true 0.1)].

Definition one_corrupt : World :=
  table_world true [("images/registered/alice.jpg", Raise (Exception "corrupt image"));
                    ("images/registered/bob.jpg", answer true 0.1)].

(** A world in which the camera, the spoof gate and the copy all succeed. *)
Definition studio : World := table_world true [].

(** A world like [two_faces] whose audit log cannot be written. *)
Definition log_down : World :=
  {| w_verify := w_verify two_faces;
     w_capture := w_capture two_faces;
     w_spoof := w_spoof two_faces;
     w_log := fun _ _ _ => Raise (Exception "disk full");
     w_copy := w_copy two_faces;
     w_place := w_place two_faces;
     w_upload := w_upload two_faces |}.

(** A world like [two_faces] whose camera cannot be opened. *)
Definition no_camera : World :=
  {| w_verify := w_verify two_faces;
     w_capture := Raise (Exception "Webcam not accessible");
     w_spoof := w_spoof two_faces;
     w_log := w_log two_faces;
     w_copy := w_copy two_faces;
     w_place := w_place two_faces;
     w_upload := w_upload two_faces |}.

(** The two directories the test script reads. *)
Definition e001_disk : state :=
  {| fs := {[ "images/registered" := ["E001.jpg"]; "images/captured" := ["E001.jpg"] ]};
     trace := [] |}.

(** * Theorems *)

(** ** Examples of the string and path functions, and two scenarios *)

Example strip_ex : Py.strip "  Jane Doe " = "Jane Doe".
Proof. reflexivity. Qed.

Example lower_ex : Py.lower "Jane_Doe.JPG" = "jane_doe.jpg".
Proof. reflexivity. Qed.

Example splitext_ex : OsPath.splitext "Jane_Doe.jpg" = ("Jane_Doe", ".jpg").
Proof. reflexivity. Qed.

Example splitext_dots : OsPath.splitext "....jpg" = ("....jpg", EmptyString).
Proof. reflexivity. Qed.

Example splitext_gitkeep : OsPath.splitext ".gitkeep" = (".gitkeep", EmptyString).
Proof. reflexivity. Qed.

Example join_ex : OsPath.join "images/registered" "alice.jpg" = "images/registered/alice.jpg".
Proof. reflexivity. Qed.

Example alice_scenario :
  let W := table_world true [("images/registered/alice.jpg", answer true 0.25)] in
  fst (verify spec_constants W (disk ["alice.jpg"]))
  = Ret {| verified := true; matched_with := Some "alice.jpg";
           score := Some 0.25%Q; error := None |}
  /\ fst (verify_face_from_photo spec_constants W (Some "image/jpeg") (disk ["alice.jpg"]))
     = Ret {| c_match := true; c_confidence := (750 # 10)%Q |}.
Proof. split; vm_compute; reflexivity. Qed.

Example empty_scenario :
  fst (verify spec_constants (table_world true []) (disk []))
  = Raise (HTTPException 400
      "No registered faces found. Please add faces to images/registered/ directory.").
Proof. vm_compute; reflexivity. Qed.

Example clean_name_ex :
  clean_name "Jane Doe" = "Jane_Doe" /\ clean_name " a/b\c  d " = "a_b_c__d".
Proof. split; reflexivity. Qed.

(** ** The scan of the engine *)

Section Scan.

Variable K : Constants.
Variable W : World.
Variables input dir model : string.

Lemma add_events_nil s : add_events s [] = s.
Proof. destruct s; unfold add_events; simpl. by rewrite app_nil_r. Qed.

Lemma add_events_app s e1 e2 :
  add_events (add_events s e1) e2 = add_events s (e1 ++ e2).
Proof. unfold add_events; simpl. by rewrite app_assoc. Qed.

Lemma body_not_identity person s :
  (is_identity K) person = false ->
  verify_face_body K W input dir model person s = (Ret None, s).
Proof.
  intros H. unfold verify_face_body. fold ((is_identity K) person). by rewrite H.
Qed.

Lemma body_identity person s :
  (is_identity K) person = true ->
  verify_face_body K W input dir model person s
  = match (oracle_answer K W input dir model) person with
    | Ret r =>
        (Ret (if df_verified r && Qltb (df_distance r) (FACE_DISTANCE_THRESHOLD K)
              then Some {| verified := true; matched_with := Some person;
                           score := Some (df_distance r); error := None |}
              else None),
         add_events s [(compare_event K input dir model) person])
    | Raise e =>
        (Ret None, add_events s [(compare_event K input dir model) person; EvPrintError person e])
    end.
Proof.
  intros H. unfold verify_face_body. fold ((is_identity K) person). rewrite H.
  unfold catch, bind, DeepFace_verify, emit, lift, ret, oracle_answer,
    add_events, compare_event. simpl.
  destruct (w_verify W input (OsPath.join dir person) model (DETECTOR_BACKEND K))
    as [r|e]; simpl.
  - by destruct (df_verified r && Qltb (df_distance r) (FACE_DISTANCE_THRESHOLD K)).
  - by rewrite <- app_assoc.
Qed.

(** An entry that is no identity, or that the oracle does not accept, is
    passed over: the loop goes on with the rest. *)
Lemma loop_pass person rest s :
  ((is_identity K) person = true -> (oracle_accepts K W input dir model) person = false) ->
  verify_face_loop K W input dir model (person :: rest) s
  = verify_face_loop K W input dir model rest (add_events s ((passed_events K W input dir model) person)).
Proof.
  intros H. cbn [verify_face_loop]. unfold bind, passed_events.
  destruct ((is_identity K) person) eqn:Hid.
  - rewrite body_identity by done. specialize (H eq_refl).
    unfold oracle_accepts in H. destruct ((oracle_answer K W input dir model) person) as [r|e]; [|done].
    by rewrite H.
  - rewrite body_not_identity by done. by rewrite add_events_nil.
Qed.

Lemma loop_pass_prefix pre rest s :
  (forall q, In q pre -> (is_identity K) q = true -> (oracle_accepts K W input dir model) q = false) ->
  verify_face_loop K W input dir model (pre ++ rest) s
  = verify_face_loop K W input dir model rest
      (add_events s (flat_map (passed_events K W input dir model) pre)).
Proof.
  revert s. induction pre as [|q pre IH]; intros s H; cbn [app flat_map].
  - by rewrite add_events_nil.
  - rewrite loop_pass by (apply H; by left).
    rewrite IH by (intros; apply H; [by right|done]).
    by rewrite add_events_app.
Qed.

Lemma loop_match person rest r s :
  (is_identity K) person = true ->
  (oracle_answer K W input dir model) person = Ret r ->
  df_verified r && Qltb (df_distance r) (FACE_DISTANCE_THRESHOLD K) = true ->
  verify_face_loop K W input dir model (person :: rest) s
  = (Ret {| verified := true; matched_with := Some person;
            score := Some (df_distance r); error := None |},
     add_events s [(compare_event K input dir model) person]).
Proof.
  intros Hid Hr Hacc. cbn [verify_face_loop]. unfold bind.
  rewrite body_identity by done. by rewrite Hr, Hacc.
Qed.

Lemma oracle_calls_app t1 t2 :
  oracle_calls (t1 ++ t2) = oracle_calls t1 ++ oracle_calls t2.
Proof. apply List.filter_app. Qed.

Lemma oracle_calls_passed pre :
  oracle_calls (flat_map (passed_events K W input dir model) pre)
  = List.map (compare_event K input dir model) (List.filter (is_identity K) pre).
Proof.
  induction pre as [|q pre IH]; [done|]. simpl.
  rewrite oracle_calls_app, IH. unfold passed_events.
  destruct ((is_identity K) q); [|done]. simpl.
  by destruct ((oracle_answer K W input dir model) q).
Qed.

Lemma events_of_add {A} (m : M A) s evs r :
  m s = (r, add_events s evs) -> events_of m s = evs.
Proof.
  intros H. unfold events_of. rewrite H. simpl. apply drop_app_length.
Qed.

Lemma verify_face_listed entries s :
  fs s !! dir = Some entries ->
  verify_face K W input dir model s = verify_face_loop K W input dir model entries s.
Proof.
  intros H. unfold verify_face, bind, os_listdir. by rewrite H.
Qed.

Lemma Qltb_lt x y : Qltb x y = true <-> (x < y)%Q.
Proof.
  unfold Qltb. rewrite negb_true_iff. split; intros H.
  - apply Qnot_le_lt. intros Hle. apply Qle_bool_iff in Hle. congruence.
  - destruct (Qle_bool y x) eqn:E; [|done].
    apply Qle_bool_iff in E. exfalso. by apply (Qlt_not_le x y).
Qed.

End Scan.

Section ScanFacts.

Variable K : Constants.
Variable W : World.
Variables input dir model : string.

Local Abbreviation loop := (verify_face_loop K W input dir model).
Local Abbreviation identity := (is_identity K).
Local Abbreviation accepts := (oracle_accepts K W input dir model).

Lemma accepts_cases person :
  (identity person = true -> accepts person = false)
  \/ (identity person = true
      /\ exists r, oracle_answer K W input dir model person = Ret r
           /\ df_verified r && Qltb (df_distance r) (FACE_DISTANCE_THRESHOLD K) = true).
Proof.
  destruct (identity person) eqn:Hid; [|by left].
  unfold oracle_accepts.
  destruct (oracle_answer K W input dir model person) as [r|e] eqn:Hr; [|by left].
  destruct (df_verified r && Qltb (df_distance r) (FACE_DISTANCE_THRESHOLD K)) eqn:Hacc.
  - right. split; [done|]. by exists r.
  - by left.
Qed.

Lemma audit_records_app t1 t2 :
  audit_records (t1 ++ t2) = audit_records t1 ++ audit_records t2.
Proof. apply List.filter_app. Qed.

Lemma audit_records_passed person :
  audit_records (passed_events K W input dir model person) = [].
Proof.
  unfold passed_events. destruct (identity person); [|done]. simpl.
  by destruct (oracle_answer K W input dir model person).
Qed.

(** The loop always returns; neither its verdict nor the events it adds
    depend on the state it starts in; it appends no audit record. *)
Lemma loop_returns entries :
  exists d evs,
    (forall s, loop entries s = (Ret d, add_events s evs))
    /\ engine_verdict K W input dir model entries d
    /\ audit_records evs = [].
Proof.
  induction entries as [|person rest IH].
  - exists no_match, []. split; [|split; [by left|done]].
    intros s. by rewrite add_events_nil.
  - destruct (accepts_cases person) as [Hpass|(Hid & r & Hr & Hacc)].
    + destruct IH as (d & evs & IH & Hd & Hev).
      exists d, (passed_events K W input dir model person ++ evs).
      split; [|split].
      * intros s. rewrite loop_pass by done. by rewrite IH, add_events_app.
      * destruct Hd as [->|(q & r & Hin & Hq)]; [by left|].
        right. exists q, r. split; [by right|done].
      * by rewrite audit_records_app, audit_records_passed, Hev.
    + apply andb_true_iff in Hacc as Hacc'. destruct Hacc' as [Hv Hlt].
      apply Qltb_lt in Hlt.
      eexists _, _. split; [|split].
      * intros s. by apply loop_match.
      * right. exists person, r. split; [by left|done].
      * done.
Qed.

Lemma failing_not_accepted person e :
  oracle_answer K W input dir model person = Raise e -> accepts person = false.
Proof. intros H. unfold oracle_accepts. by rewrite H. Qed.

End ScanFacts.

(** ** The engine as a search *)

Section EngineSearch.

Variable K : Constants.
Variable W : World.
Variables input dir model : string.

Local Abbreviation loop := (verify_face_loop K W input dir model).
Local Abbreviation identity := (is_identity K).
Local Abbreviation accepts := (oracle_accepts K W input dir model).
Local Abbreviation passed := (passed_events K W input dir model).
Local Abbreviation cmp := (compare_event K input dir model).

(** The events of a scan: the entries passed over, then the matching call. *)
Lemma loop_trace entries :
  exists pre post d evs,
    entries = pre ++ post
    /\ (forall q, In q pre -> identity q = true -> accepts q = false)
    /\ (forall s, loop entries s = (Ret d, add_events s evs))
    /\ ((post = [] /\ d = no_match /\ evs = flat_map passed pre)
        \/ (exists p rest r,
              post = p :: rest /\ identity p = true
              /\ oracle_answer K W input dir model p = Ret r
              /\ df_verified r && Qltb (df_distance r) (FACE_DISTANCE_THRESHOLD K) = true
              /\ d = {| verified := true; matched_with := Some p;
                        score := Some (df_distance r); error := None |}
              /\ evs = flat_map passed pre ++ [cmp p])).
Proof.
  induction entries as [|person rest IH].
  - exists [], [], no_match, []. repeat split; [by intros q []| |by left].
    intros s. by rewrite add_events_nil.
  - destruct (accepts_cases K W input dir model person) as [Hpass|(Hid & r & Hr & Hacc)].
    + destruct IH as (pre & post & d & evs & -> & Hpre & Hl & Hshape).
      exists (person :: pre), post, d, (passed person ++ evs).
      split; [done|]. split; [|split].
      * intros q [<-|Hq]; [done|by apply Hpre].
      * intros s. rewrite loop_pass by done. by rewrite Hl, add_events_app.
      * destruct Hshape as [(-> & -> & ->)|(p & rest' & r & -> & Hid & Hr & Hacc & -> & ->)].
        -- by left.
        -- right. exists p, rest', r. repeat split; try done.
           cbn [flat_map]. by rewrite app_assoc.
    + exists [], (person :: rest),
        {| verified := true; matched_with := Some person;
           score := Some (df_distance r); error := None |}, [cmp person].
      split; [done|]. split; [by intros q []|]. split.
      * intros s. by apply loop_match.
      * right. by exists person, rest, r.
Qed.

Lemma loop_is_find entries s :
  fst (loop entries s)
  = Ret (verdict_of K W input dir model (first_accepted K W input dir model entries)).
Proof.
  revert s. induction entries as [|person rest IH]; intros s; [done|].
  destruct (accepts_cases K W input dir model person) as [Hpass|(Hid & r & Hr & Hacc)].
  - rewrite loop_pass by done. rewrite IH.
    unfold first_accepted. cbn [List.find].
    destruct (identity person) eqn:Hid; [by rewrite (Hpass eq_refl)|done].
  - rewrite (loop_match _ _ _ _ _ person rest r) by done.
    unfold first_accepted. cbn [List.find]. rewrite Hid.
    unfold oracle_accepts at 1. rewrite Hr, Hacc. cbn [andb verdict_of fst].
    by rewrite Hr.
Qed.


Lemma first_accepted_app pre post :
  (forall q, In q pre -> identity q = true -> accepts q = false) ->
  first_accepted K W input dir model (pre ++ post)
  = first_accepted K W input dir model post.
Proof.
  intros H. unfold first_accepted. induction pre as [|q pre IH]; [done|].
  cbn [app List.find].
  destruct (identity q) eqn:Hid.
  - rewrite (H q (or_introl eq_refl) Hid). cbn [andb].
    apply IH. intros q' Hq'. apply H. by right.
  - cbn [andb]. apply IH. intros q' Hq'. apply H. by right.
Qed.

Lemma first_accepted_drop pre person post :
  accepts person = false ->
  first_accepted K W input dir model (pre ++ person :: post)
  = first_accepted K W input dir model (pre ++ post).
Proof.
  intros H. unfold first_accepted. induction pre as [|q pre IH].
  - cbn [app List.find]. by rewrite H, andb_false_r.
  - cbn [app List.find]. by rewrite IH.
Qed.

(** The calls of a scan, by the result of the search. *)
Lemma loop_calls entries :
  exists evs,
    (forall s, loop entries s
               = (Ret (verdict_of K W input dir model
                         (first_accepted K W input dir model entries)),
                  add_events s evs))
    /\ match first_accepted K W input dir model entries with
       | Some winner =>
           exists before after,
             entries = before ++ winner :: after
             /\ oracle_calls evs
                = List.map cmp (List.filter identity before ++ [winner])
       | None => oracle_calls evs = List.map cmp (List.filter identity entries)
       end.
Proof.
  destruct (loop_trace entries) as (pre & post & d & evs & -> & Hpre & Hl & Hshape).
  exists evs. split.
  - intros s. rewrite Hl. f_equal.
    pose proof (loop_is_find (pre ++ post) s) as H. rewrite Hl in H. exact H.
  - rewrite (first_accepted_app _ _ Hpre).
    destruct Hshape as [(-> & -> & ->)|(p & rest & r & -> & Hid & Hr & Hacc & -> & ->)].
    + cbn [first_accepted List.find]. by rewrite app_nil_r, oracle_calls_passed.
    + unfold first_accepted. cbn [List.find]. rewrite Hid.
      unfold oracle_accepts. rewrite Hr, Hacc. cbn [andb].
      exists pre, rest. split; [done|].
      by rewrite oracle_calls_app, oracle_calls_passed, List.map_app.
Qed.

End EngineSearch.

(** ** The claims about the engine *)

(** C2. First match wins: when the gallery lists [pre ++ person :: post], the
    oracle reports [verified = true] with a distance [d] below the threshold
    for the identity [person], and it does so for no identity of [pre], then
    [verify_face] returns [{verified: True, matched_with: person, score: d}];
    it returns at once, the oracle having been asked about the identities of
    [pre] and about [person] and about no entry of [post], whatever the
    distances there are. *)
Theorem first_match_wins K W input dir model pre person post d s :
  fs s !! dir = Some (pre ++ person :: post) ->
  is_identity K person = true ->
  oracle_answer K W input dir model person = answer true d ->
  (d < FACE_DISTANCE_THRESHOLD K)%Q ->
  (forall q, In q pre -> is_identity K q = true ->
             oracle_accepts K W input dir model q = false) ->
  fst (verify_face K W input dir model s)
  = Ret {| verified := true; matched_with := Some person;
           score := Some d; error := None |}
  /\ oracle_calls (events_of (verify_face K W input dir model) s)
     = List.map (compare_event K input dir model)
         (List.filter (is_identity K) pre ++ [person])
  /\ fs (snd (verify_face K W input dir model s)) = fs s.
Proof.
  intros Hfs Hid Hans Hd Hpre.
  assert (Hrun : verify_face K W input dir model s
    = (Ret {| verified := true; matched_with := Some person;
              score := Some d; error := None |},
       add_events s (flat_map (passed_events K W input dir model) pre
                     ++ [compare_event K input dir model person]))).
  { rewrite (verify_face_listed _ _ _ _ _ _ _ Hfs).
    rewrite loop_pass_prefix by done.
    rewrite (loop_match _ _ _ _ _ person post {| df_verified := true; df_distance := d |});
      [by rewrite add_events_app | done | done |].
    simpl. by apply Qltb_lt. }
  split; [by rewrite Hrun|]. split; [|by rewrite Hrun].
  rewrite (events_of_add _ _ _ _ Hrun).
  rewrite oracle_calls_app, oracle_calls_passed, List.map_app. done.
Qed.

Lemma first_match_wins_witness :
  fst (verify_face spec_constants two_faces "capture.jpg" "images/registered" "Facenet"
         (disk [".gitkeep"; "alice.jpg"; "bob.jpg"]))
  = Ret {| verified := true; matched_with := Some "alice.jpg";
           score := Some 0.3%Q; error := None |}
  /\ oracle_calls (events_of
        (verify_face spec_constants two_faces "capture.jpg" "images/registered" "Facenet")
        (disk [".gitkeep"; "alice.jpg"; "bob.jpg"]))
     = [EvCompare "capture.jpg" "images/registered/alice.jpg" "Facenet" "opencv"]
  /\ fs (snd (verify_face spec_constants two_faces "capture.jpg" "images/registered"
           "Facenet" (disk [".gitkeep"; "alice.jpg"; "bob.jpg"])))
     = fs (disk [".gitkeep"; "alice.jpg"; "bob.jpg"]).
Proof.
  apply (first_match_wins spec_constants two_faces "capture.jpg" "images/registered"
           "Facenet" [".gitkeep"] "alice.jpg" ["bob.jpg"] 0.3%Q
           (disk [".gitkeep"; "alice.jpg"; "bob.jpg"])).
  - reflexivity.
  - reflexivity.
  - reflexivity.
  - reflexivity.
  - intros q [<-|[]] H. discriminate H.
Defined.

(** The winner is the first acceptable identity of the scan, not the closest
    one: with the order of the two entries swapped the other one wins. *)
Example scan_order_decides :
  fst (verify_face spec_constants two_faces "capture.jpg" "images/registered" "Facenet"
         (disk ["alice.jpg"; "bob.jpg"]))
  = Ret {| verified := true; matched_with := Some "alice.jpg";
           score := Some 0.3%Q; error := None |}
  /\ fst (verify_face spec_constants two_faces "capture.jpg" "images/registered" "Facenet"
            (disk ["bob.jpg"; "alice.jpg"]))
     = Ret {| verified := true; matched_with := Some "bob.jpg";
              score := Some 0.1%Q; error := None |}.
Proof. split; vm_compute; reflexivity. Qed.

(** C3. A comparison that raises for one gallery entry does not abort the
    scan. [verify_face] returns the verdict of the search over the other
    entries, whatever the failing entry is. When the scan reaches the entry
    (no identity before it is accepted), the call of the oracle for it is
    followed at once by the printed error, the scan goes on with the entries
    after it, and the verdict is that of the search among them: when an
    identity there is accepted the oracle is called for the identities up to
    it, and when none is, for all of them. *)
Theorem comparison_error_is_skipped K W input dir model pre person post e s :
  fs s !! dir = Some (pre ++ person :: post) ->
  is_identity K person = true ->
  oracle_answer K W input dir model person = Raise e ->
  fst (verify_face K W input dir model s)
  = Ret (verdict_of K W input dir model
           (first_accepted K W input dir model (pre ++ post)))
  /\ ((forall q, In q pre -> is_identity K q = true ->
                 oracle_accepts K W input dir model q = false) ->
      exists later,
        events_of (verify_face K W input dir model) s
        = flat_map (passed_events K W input dir model) pre
          ++ [compare_event K input dir model person; EvPrintError person e]
          ++ later
        /\ fst (verify_face K W input dir model s)
           = Ret (verdict_of K W input dir model
                    (first_accepted K W input dir model post))
        /\ match first_accepted K W input dir model post with
           | Some winner =>
               exists before after,
                 post = before ++ winner :: after
                 /\ oracle_calls later
                    = List.map (compare_event K input dir model)
                        (List.filter (is_identity K) before ++ [winner])
           | None =>
               oracle_calls later
               = List.map (compare_event K input dir model)
                   (List.filter (is_identity K) post)
           end).
Proof.
  intros Hfs Hid He.
  pose proof (failing_not_accepted K W input dir model person e He) as Hno.
  split.
  - rewrite (verify_face_listed _ _ _ _ _ _ _ Hfs), loop_is_find.
    by rewrite first_accepted_drop.
  - intros Hpre.
    destruct (loop_calls K W input dir model post) as (later & Hl & Hcalls).
    exists later.
    assert (Hrun : verify_face K W input dir model s
      = (Ret (verdict_of K W input dir model
                (first_accepted K W input dir model post)),
         add_events s (flat_map (passed_events K W input dir model) pre
                       ++ [compare_event K input dir model person;
                           EvPrintError person e] ++ later))).
    { rewrite (verify_face_listed _ _ _ _ _ _ _ Hfs).
      rewrite loop_pass_prefix by done.
      rewrite loop_pass by done.
      rewrite Hl, !add_events_app. unfold passed_events.
      fold (oracle_answer K W input dir model person).
      by rewrite Hid, He. }
    split; [by rewrite (events_of_add _ _ _ _ Hrun)|].
    split; [by rewrite Hrun|exact Hcalls].
Qed.

Lemma comparison_error_is_skipped_witness :
  fst (verify_face spec_constants one_corrupt "capture.jpg" "images/registered"
         "Facenet" (disk ["notes.txt"; "alice.jpg"; "bob.jpg"]))
  = Ret {| verified := true; matched_with := Some "bob.jpg";
           score := Some 0.1%Q; error := None |}.
Proof.
  destruct (comparison_error_is_skipped spec_constants one_corrupt "capture.jpg"
              "images/registered" "Facenet" ["notes.txt"] "alice.jpg" ["bob.jpg"]
              (Exception "corrupt image")
              (disk ["notes.txt"; "alice.jpg"; "bob.jpg"])) as [H _].
  - reflexivity.
  - reflexivity.
  - reflexivity.
  - exact H.
Defined.

Example corrupt_entry_run :
  verify_face spec_constants one_corrupt "capture.jpg" "images/registered" "Facenet"
    (disk ["alice.jpg"; "bob.jpg"])
  = (Ret {| verified := true; matched_with := Some "bob.jpg";
            score := Some 0.1%Q; error := None |},
     add_events (disk ["alice.jpg"; "bob.jpg"])
       [EvCompare "capture.jpg" "images/registered/alice.jpg" "Facenet" "opencv";
        EvPrintError "alice.jpg" (Exception "corrupt image");
        EvCompare "capture.jpg" "images/registered/bob.jpg" "Facenet" "opencv"]).
Proof. vm_compute; reflexivity. Qed.

(** ** The request handlers, case by case *)

Section HandlerCases.

Variable K : Constants.
Variable W : World.

Local Abbreviation D := (REGISTERED_FACES_DIR K).

Lemma no_registered_faces_run s :
  no_registered_faces K s
  = (Ret match fs s !! D with Some (_ :: _) => false | _ => true end, s).
Proof.
  unfold no_registered_faces, bind, os_path_exists, os_listdir, ret.
  destruct (fs s !! D) as [[|x l]|] eqn:E; simpl; by rewrite ?E.
Qed.

(** [POST /api/verify], one equation per path through the handler. *)
Lemma verify_run s :
  verify K W s
  = match fs s !! D with
    | Some (x :: l) =>
        match w_capture W with
        | Raise e => verify_except e (add_events s [EvCapture])
        | Ret path =>
            match w_spoof W path with
            | Raise e => verify_except e (add_events s [EvCapture; EvSpoofCheck path])
            | Ret false =>
                (Ret spoof_rejected, add_events s [EvCapture; EvSpoofCheck path])
            | Ret true =>
                match verify_face_loop K W path D (FACE_MODEL K) (x :: l)
                        (add_events s [EvCapture; EvSpoofCheck path]) with
                | (Ret d, s1) =>
                    match w_log W (matched_with d) (verified d) (score d) with
                    | Ret _ =>
                        (Ret d, add_events s1
                                  [EvAudit (matched_with d) (verified d) (score d)])
                    | Raise e => verify_except e s1
                    end
                | (Raise e, s1) => verify_except e s1
                end
            end
        end
    | _ =>
        (Raise (HTTPException 400
           "No registered faces found. Please add faces to images/registered/ directory."),
         s)
    end.
Proof.
  unfold verify, catch, bind. rewrite no_registered_faces_run.
  destruct (fs s !! D) as [[|x l]|] eqn:E; [reflexivity| |reflexivity].
  unfold capture_face, basic_spoof_check, bind, emit, lift.
  cbn [negb fst snd fs trace].
  destruct (w_capture W) as [path|e]; [|reflexivity].
  cbn [negb fst snd fs trace]. rewrite <- app_assoc. cbn [app].
  fold (add_events s [EvCapture; EvSpoofCheck path]).
  destruct (w_spoof W path) as [[|]|e]; [| reflexivity | reflexivity].
  cbn [negb]. rewrite (verify_face_listed K W path D (FACE_MODEL K) (x :: l)) by done.
  destruct (verify_face_loop K W path D (FACE_MODEL K) (x :: l)
              (add_events s [EvCapture; EvSpoofCheck path])) as [[d|e] s1];
    [|reflexivity].
  unfold log_verification, bind, lift, emit, ret.
  destruct (w_log W (matched_with d) (verified d) (score d)) as [u|e];
    reflexivity.
Qed.

(** [POST /verify-face], one equation per path through the handler. *)
Lemma verify_face_from_photo_run content_type s :
  verify_face_from_photo K W content_type s
  = match content_type with
    | None => (Raise (HTTPException 500 "Face verification failed"), s)
    | Some ct =>
        if negb (Py.startswith ct "image/")
        then (Raise (HTTPException 400 "File must be an image"), s)
        else
          match fs s !! D with
          | Some (x :: l) =>
              match w_upload W with
              | Raise e => photo_except e (add_events s [EvSaveUpload])
              | Ret temp =>
                  match w_spoof W temp with
                  | Raise e =>
                      photo_except e
                        (add_events s [EvSaveUpload; EvSpoofCheck temp; EvUnlink temp])
                  | Ret false =>
                      (Ret client_no_match,
                       add_events s [EvSaveUpload; EvSpoofCheck temp; EvUnlink temp])
                  | Ret true =>
                      match verify_face_loop K W temp D (FACE_MODEL K) (x :: l)
                              (add_events s [EvSaveUpload; EvSpoofCheck temp]) with
                      | (Ret d, s1) =>
                          if verified d
                          then
                            match score d with
                            | Some sc =>
                                match w_log W (matched_with d) true (Some sc) with
                                | Ret _ =>
                                    (Ret {| c_match := true;
                                            c_confidence := round1 (confidence_of sc) |},
                                     add_events s1
                                       [EvAudit (matched_with d) true (Some sc);
                                        EvUnlink temp])
                                | Raise e =>
                                    photo_except e (add_events s1 [EvUnlink temp])
                                end
                            | None =>
                                (Raise (HTTPException 500 "Face verification failed"),
                                 add_events s1 [EvUnlink temp])
                            end
                          else
                            match w_log W None false None with
                            | Ret _ =>
                                (Ret client_no_match,
                                 add_events s1 [EvAudit None false None; EvUnlink temp])
                            | Raise e =>
                                photo_except e (add_events s1 [EvUnlink temp])
                            end
                      | (Raise e, s1) => photo_except e (add_events s1 [EvUnlink temp])
                      end
                  end
              end
          | _ =>
              (Raise (HTTPException 400 "No registered employees found in system"), s)
          end
    end.
Proof.
  unfold verify_face_from_photo, catch, bind.
  destruct content_type as [ct|]; [|reflexivity].
  unfold ret at 1. destruct (Py.startswith ct "image/"); [|reflexivity].
  cbn [negb]. rewrite no_registered_faces_run.
  destruct (fs s !! D) as [[|x l]|] eqn:E; [reflexivity| |reflexivity].
  unfold save_upload, basic_spoof_check, finally, os_unlink, bind, emit, lift.
  cbn [negb fst snd fs trace].
  destruct (w_upload W) as [temp|e]; [|destruct e; reflexivity].
  cbn [negb fst snd fs trace].
  destruct (w_spoof W temp) as [[|]|e]; cbn [negb fst snd fs trace].
  - rewrite <- app_assoc. cbn [app].
    fold (add_events s [EvSaveUpload; EvSpoofCheck temp]).
    rewrite (verify_face_listed K W temp D (FACE_MODEL K) (x :: l)) by done.
    destruct (verify_face_loop K W temp D (FACE_MODEL K) (x :: l)
                (add_events s [EvSaveUpload; EvSpoofCheck temp])) as [[d|e] s1];
      [|destruct e; reflexivity].
    destruct (verified d).
    + destruct (score d) as [sc|]; [|reflexivity].
      unfold log_verification, bind, lift, emit, ret.
      destruct (w_log W (matched_with d) true (Some sc)) as [u|e].
      * cbn [fs trace]. unfold add_events. by rewrite <- app_assoc.
      * destruct e; reflexivity.
    + unfold log_verification, bind, lift, emit, ret.
      destruct (w_log W None false None) as [u|e].
      * cbn [fs trace]. unfold add_events. by rewrite <- app_assoc.
      * destruct e; reflexivity.
  - unfold ret, add_events. cbn [fs trace]. by rewrite <- !app_assoc.
  - unfold add_events. cbn [fs trace].
    destruct e; unfold photo_except, raise; cbn [fs trace]; by rewrite <- !app_assoc.
Qed.

End HandlerCases.

(** ** The claims about the handlers *)

Section HandlerFacts.

Variable K : Constants.
Variable W : World.

Local Abbreviation D := (REGISTERED_FACES_DIR K).

Lemma gallery_check_passes_listing s :
  gallery_check_passes K s <-> exists x l, fs s !! D = Some (x :: l).
Proof.
  unfold gallery_check_passes. rewrite no_registered_faces_run. simpl.
  destruct (fs s !! D) as [[|x l]|]; split; try discriminate; eauto.
  - intros (? & ? & ?); discriminate.
  - intros (? & ? & ?); discriminate.
Qed.

Lemma verify_except_ret e s d :
  fst (verify_except e s) = Ret d -> d = internal_error.
Proof. destruct e; simpl; congruence. Qed.

Lemma verify_except_state e s : snd (verify_except e s) = s.
Proof. by destruct e. Qed.

Lemma photo_except_raises e s :
  exists c msg, photo_except e s = (Raise (HTTPException c msg), s).
Proof. destruct e; simpl; eauto. Qed.


(** What [/api/verify] can return as a dictionary. *)
Lemma verify_returns s d :
  fst (verify K W s) = Ret d ->
  d = spoof_rejected \/ d = internal_error
  \/ exists path x l,
       fs s !! D = Some (x :: l) /\ w_capture W = Ret path
       /\ w_spoof W path = Ret true
       /\ engine_verdict K W path D (FACE_MODEL K) (x :: l) d.
Proof.
  rewrite verify_run.
  destruct (fs s !! D) as [[|x l]|] eqn:E; [discriminate| |discriminate].
  destruct (w_capture W) as [path|e] eqn:Hc;
    [|intros H; right; left; by eapply verify_except_ret].
  destruct (w_spoof W path) as [[|]|e] eqn:Hs.
  - destruct (loop_returns K W path D (FACE_MODEL K) (x :: l)) as (d' & evs & Hl & Hd & _).
    rewrite Hl.
    destruct (w_log W (matched_with d') (verified d') (score d')).
    + simpl. intros [= <-]. right; right. by exists path, x, l.
    + intros H; right; left; by eapply verify_except_ret.
  - simpl. intros [= <-]. by left.
  - intros H; right; left; by eapply verify_except_ret.
Qed.

End HandlerFacts.

Lemma engine_verdict_invariant K W input dir model entries d :
  engine_verdict K W input dir model entries d -> result_invariant d.
Proof.
  intros [->|(person & r & _ & _ & _ & _ & _ & ->)]; unfold result_invariant; simpl.
  - split; split; try discriminate; by intros [? ?].
  - split; split; eauto.
Qed.

Lemma verify_face_returns K W input dir model s d :
  fst (verify_face K W input dir model s) = Ret d ->
  exists entries, fs s !! dir = Some entries
    /\ engine_verdict K W input dir model entries d.
Proof.
  unfold verify_face, bind, os_listdir.
  destruct (fs s !! dir) as [entries|] eqn:E; [|discriminate].
  destruct (loop_returns K W input dir model entries) as (d' & evs & Hl & Hd & _).
  rewrite Hl. simpl. intros [= <-]. by exists entries.
Qed.

(** C1. A gallery directory that holds only a placeholder file has no
    identity to compare with, yet the check of the handlers lets the request
    through: [/api/verify] answers 200 with [{verified: False, matched_with:
    None, score: None}] and [/verify-face] answers [{match: False,
    confidence: 0.0}], where the claim promises a 400. *)
Theorem placeholder_only_gallery_is_not_rejected :
  gallery spec_constants (disk [".gitkeep"]) = []
  /\ verify spec_constants (table_world true []) (disk [".gitkeep"])
     = (Ret no_match,
        add_events (disk [".gitkeep"])
          [EvCapture; EvSpoofCheck "images/captured/capture.jpg";
           EvAudit None false None])
  /\ http_status (fst (verify spec_constants (table_world true []) (disk [".gitkeep"])))
     = 200%Z
  /\ fst (verify_face_from_photo spec_constants (table_world true [])
            (Some "image/jpeg") (disk [".gitkeep"]))
     = Ret client_no_match.
Proof. repeat split; vm_compute; reflexivity. Qed.

(** The engine itself has no such check: over a directory without entries it
    returns the no-match dictionary. *)
Example engine_on_empty_directory :
  fst (verify_face spec_constants (table_world true []) "capture.jpg"
         "images/registered" "Facenet" (disk []))
  = Ret no_match.
Proof. vm_compute; reflexivity. Qed.

(** C4, as stated, fails: the answer of [/api/verify] to a capture that the
    spoof gate rejects has [verified = False] and the score [0.0]. *)
Lemma spoof_answer_breaks_invariant :
  ~ (forall K W s d, fst (verify K W s) = Ret d -> result_invariant d).
Proof.
  intros H.
  destruct (H spec_constants (table_world false []) (disk ["alice.jpg"]) spoof_rejected)
    as [_ [Hscore _]]; [vm_compute; reflexivity|].
  assert (Hv : verified spoof_rejected = true) by (apply Hscore; simpl; eauto).
  discriminate Hv.
Qed.

(** C4, amended. Every dictionary returned by the engine [verify_face] has
    [matched_with] and [score] present exactly when [verified] is true. Every
    dictionary returned by [/api/verify] has [matched_with] present exactly
    when [verified] is true and has a score when [verified] is true; when
    [verified] is false its score is absent or [0.0]. *)
Theorem verification_result_fields K W s d :
  (forall input dir model,
     fst (verify_face K W input dir model s) = Ret d -> result_invariant d)
  /\ (fst (verify K W s) = Ret d ->
      (is_Some (matched_with d) <-> verified d = true)
      /\ (verified d = true -> is_Some (score d))
      /\ (verified d = false -> score d = None \/ score d = Some 0%Q)).
Proof.
  split.
  - intros input dir model H.
    destruct (verify_face_returns _ _ _ _ _ _ _ H) as (entries & _ & Hd).
    by eapply engine_verdict_invariant.
  - intros H. apply verify_returns in H.
    destruct H as [->|[->|(path & x & l & _ & _ & _ & Hd)]].
    + simpl. repeat split; try discriminate; eauto. by intros [? ?].
    + simpl. repeat split; try discriminate; eauto. by intros [? ?].
    + destruct Hd as [->|(person & r & _ & _ & _ & _ & _ & ->)]; simpl.
      * repeat split; try discriminate; eauto. by intros [? ?].
      * repeat split; eauto. discriminate.
Qed.

Lemma verification_result_fields_witness :
  result_invariant no_match
  /\ (is_Some (matched_with spoof_rejected) <-> verified spoof_rejected = true)
  /\ (verified spoof_rejected = true -> is_Some (score spoof_rejected))
  /\ (verified spoof_rejected = false ->
      score spoof_rejected = None \/ score spoof_rejected = Some 0%Q).
Proof.
  split.
  - apply (proj1 (verification_result_fields spec_constants (table_world true [])
                    (disk [".gitkeep"]) no_match)
             "capture.jpg" "images/registered" "Facenet").
    vm_compute; reflexivity.
  - apply (proj2 (verification_result_fields spec_constants (table_world false [])
                    (disk ["alice.jpg"]) spoof_rejected)).
    vm_compute; reflexivity.
Defined.

(** C7. A capture that the spoof gate rejects never reaches the oracle. On
    [/api/verify], once the gallery check has passed and the camera has
    delivered a file for which [basic_spoof_check] is false, the handler
    returns [{verified: False, matched_with: None, score: 0.0}] and the only
    calls made are the capture and the spoof check. On [/verify-face], once
    the content type and the gallery check have passed and the upload is
    saved to a file for which [basic_spoof_check] is false, the handler
    returns [{match: False, confidence: 0.0}] and the only calls made are the
    saving of the upload, the spoof check and the removal of the temporary
    file. In both there is no call of [DeepFace.verify]. *)
Theorem spoof_rejection_short_circuits K W s :
  (forall path,
     gallery_check_passes K s ->
     w_capture W = Ret path -> w_spoof W path = Ret false ->
     verify K W s
     = (Ret {| verified := false; matched_with := None;
               score := Some 0%Q; error := None |},
        add_events s [EvCapture; EvSpoofCheck path])
     /\ oracle_calls (events_of (verify K W) s) = [])
  /\ (forall ct temp,
        Py.startswith ct "image/" = true ->
        gallery_check_passes K s ->
        w_upload W = Ret temp -> w_spoof W temp = Ret false ->
        verify_face_from_photo K W (Some ct) s
        = (Ret {| c_match := false; c_confidence := 0%Q |},
           add_events s [EvSaveUpload; EvSpoofCheck temp; EvUnlink temp])
        /\ oracle_calls (events_of (verify_face_from_photo K W (Some ct)) s) = []).
Proof.
  split.
  - intros path Hg Hc Hs.
    apply gallery_check_passes_listing in Hg as (x & l & Hfs).
    assert (H1 : verify K W s = (Ret spoof_rejected,
                                 add_events s [EvCapture; EvSpoofCheck path])).
    { rewrite verify_run. by rewrite Hfs, Hc, Hs. }
    split; [done|]. by rewrite (events_of_add _ _ _ _ H1).
  - intros ct temp Hct Hg Hu Ht.
    apply gallery_check_passes_listing in Hg as (x & l & Hfs).
    assert (H2 : verify_face_from_photo K W (Some ct) s
                 = (Ret client_no_match,
                    add_events s [EvSaveUpload; EvSpoofCheck temp; EvUnlink temp])).
    { rewrite verify_face_from_photo_run. rewrite Hct. simpl. by rewrite Hfs, Hu, Ht. }
    split; [done|]. by rewrite (events_of_add _ _ _ _ H2).
Qed.

Lemma spoof_rejection_short_circuits_witness :
  (verify spec_constants (table_world false []) (disk ["alice.jpg"])
   = (Ret {| verified := false; matched_with := None;
             score := Some 0%Q; error := None |},
      add_events (disk ["alice.jpg"])
        [EvCapture; EvSpoofCheck "images/captured/capture.jpg"])
   /\ oracle_calls (events_of (verify spec_constants (table_world false []))
                      (disk ["alice.jpg"])) = [])
  /\ (verify_face_from_photo spec_constants (table_world false []) (Some "image/png")
        (disk ["alice.jpg"])
      = (Ret {| c_match := false; c_confidence := 0%Q |},
         add_events (disk ["alice.jpg"])
           [EvSaveUpload; EvSpoofCheck "/tmp/upload.jpg"; EvUnlink "/tmp/upload.jpg"])
      /\ oracle_calls (events_of
           (verify_face_from_photo spec_constants (table_world false [])
              (Some "image/png")) (disk ["alice.jpg"])) = []).
Proof.
  split.
  - apply (proj1 (spoof_rejection_short_circuits spec_constants (table_world false [])
                    (disk ["alice.jpg"])) "images/captured/capture.jpg").
    + vm_compute; reflexivity.
    + reflexivity.
    + reflexivity.
  - apply (proj2 (spoof_rejection_short_circuits spec_constants (table_world false [])
                    (disk ["alice.jpg"])) "image/png" "/tmp/upload.jpg").
    + reflexivity.
    + vm_compute; reflexivity.
    + reflexivity.
    + reflexivity.
Defined.

(** ** The audit log and the outcomes seen by the caller *)

Section AuditFacts.

Variable K : Constants.
Variable W : World.

Local Abbreviation D := (REGISTERED_FACES_DIR K).

Lemma events_of_snd {A} (m : M A) s evs :
  snd (m s) = add_events s evs -> events_of m s = evs.
Proof. intros H. unfold events_of. rewrite H. simpl. apply drop_app_length. Qed.

Lemma photo_except_state e s : snd (photo_except e s) = s.
Proof. by destruct e. Qed.

(** When the scan does not run, [/api/verify] appends no record. *)
Lemma verify_no_scan_no_record s :
  ~ scan_runs_verify K W s ->
  audit_records (events_of (verify K W) s) = []
  /\ oracle_calls (events_of (verify K W) s) = [].
Proof.
  intros Hn.
  assert (exists evs, snd (verify K W s) = add_events s evs
                      /\ audit_records evs = [] /\ oracle_calls evs = [])
    as (evs & Hs & Ha & Ho).
  { rewrite verify_run.
    destruct (fs s !! D) as [[|x l]|] eqn:Hfs;
      [exists []; by rewrite add_events_nil| |exists []; by rewrite add_events_nil].
    destruct (w_capture W) as [path|e] eqn:Hc;
      [|eexists; by rewrite verify_except_state].
    destruct (w_spoof W path) as [[|]|e] eqn:Hsp;
      [|by eexists|eexists; by rewrite verify_except_state].
    exfalso. apply Hn. split; [|by exists path].
    apply gallery_check_passes_listing. by exists x, l. }
  by rewrite (events_of_snd _ _ _ Hs).
Qed.

Lemma verify_face_from_photo_no_scan ct s :
  ~ scan_runs_photo K W ct s ->
  audit_records (events_of (verify_face_from_photo K W ct) s) = []
  /\ oracle_calls (events_of (verify_face_from_photo K W ct) s) = []
  /\ ((exists temp, w_upload W = Ret temp /\ w_spoof W temp = Ret false)
      /\ fst (verify_face_from_photo K W ct s) = Ret client_no_match
      \/ (exists c msg, fst (verify_face_from_photo K W ct s)
                        = Raise (HTTPException c msg))).
Proof.
  intros Hn.
  assert (exists evs, snd (verify_face_from_photo K W ct s) = add_events s evs
                      /\ audit_records evs = [] /\ oracle_calls evs = [])
    as (evs & Hs & Ha & Ho).
  { rewrite verify_face_from_photo_run.
    destruct ct as [c|]; [|exists []; by rewrite add_events_nil].
    destruct (Py.startswith c "image/") eqn:Hct; cbn [negb];
      [|exists []; by rewrite add_events_nil].
    destruct (fs s !! D) as [[|x l]|] eqn:Hfs;
      [exists []; by rewrite add_events_nil| |exists []; by rewrite add_events_nil].
    destruct (w_upload W) as [temp|e] eqn:Hu;
      [|eexists; by rewrite photo_except_state].
    destruct (w_spoof W temp) as [[|]|e] eqn:Hsp;
      [|by eexists|eexists; by rewrite photo_except_state].
    exfalso. apply Hn. split; [by exists c|]. split; [|by exists temp].
    apply gallery_check_passes_listing. by exists x, l. }
  rewrite (events_of_snd _ _ _ Hs). split; [done|]. split; [done|].
  rewrite verify_face_from_photo_run.
  destruct ct as [c|]; [|right; by eexists _, _].
  destruct (Py.startswith c "image/") eqn:Hct; cbn [negb];
    [|right; by eexists _, _].
  destruct (fs s !! D) as [[|x l]|] eqn:Hfs;
    [right; by eexists _, _| |right; by eexists _, _].
  destruct (w_upload W) as [temp|e] eqn:Hu.
  - destruct (w_spoof W temp) as [[|]|e] eqn:Hsp.
    + exfalso. apply Hn. split; [by exists c|]. split; [|by exists temp].
      apply gallery_check_passes_listing. by exists x, l.
    + left. split; [by exists temp|done].
    + right. destruct (photo_except_raises e
        (add_events s [EvSaveUpload; EvSpoofCheck temp; EvUnlink temp]))
        as (c' & msg & ->). by exists c', msg.
  - right. destruct (photo_except_raises e (add_events s [EvSaveUpload]))
      as (c' & msg & ->). by exists c', msg.
Qed.

End AuditFacts.

(** ** Runs of the two verification routes *)

Section RouteFacts.

Variable K : Constants.
Variable W : World.

Local Abbreviation D := (REGISTERED_FACES_DIR K).

Lemma unlink_passed input dir model pre :
  List.filter is_unlink (flat_map (passed_events K W input dir model) pre) = [].
Proof.
  induction pre as [|q pre IH]; [done|]. cbn [flat_map].
  rewrite List.filter_app, IH, app_nil_r. unfold passed_events.
  destruct (is_identity K q); [|done]. cbn.
  by destruct (oracle_answer K W input dir model q).
Qed.

Lemma loop_no_unlink input dir model entries :
  exists d evs,
    (forall s, verify_face_loop K W input dir model entries s = (Ret d, add_events s evs))
    /\ List.filter is_unlink evs = [].
Proof.
  destruct (loop_trace K W input dir model entries)
    as (pre & post & d & evs & _ & _ & Hl & Hshape).
  exists d, evs. split; [done|].
  destruct Hshape as [(_ & _ & ->)|(p & rest & r & _ & _ & _ & _ & _ & ->)].
  - apply unlink_passed.
  - by rewrite List.filter_app, unlink_passed.
Qed.

(** Every run of [/api/verify] leaves the state it found, with events added. *)
Lemma verify_adds_events s :
  exists evs, snd (verify K W s) = add_events s evs.
Proof.
  rewrite verify_run.
  destruct (fs s !! D) as [[|x l]|];
    [exists []; by rewrite add_events_nil| |exists []; by rewrite add_events_nil].
  destruct (w_capture W) as [path|e]; [|eexists; by rewrite verify_except_state].
  destruct (w_spoof W path) as [[|]|e];
    [|by eexists|eexists; by rewrite verify_except_state].
  destruct (loop_returns K W path D (FACE_MODEL K) (x :: l)) as (d & evs & Hl & _ & _).
  rewrite Hl.
  destruct (w_log W (matched_with d) (verified d) (score d)).
  - eexists. cbn [snd]. by rewrite !add_events_app.
  - eexists. rewrite verify_except_state. by rewrite !add_events_app.
Qed.

(** Once the upload is saved, the run of [/verify-face] ends with the removal
    of the temporary file, and removes nothing before. *)
Lemma photo_after_upload ct s temp :
  Py.startswith ct "image/" = true ->
  gallery_check_passes K s ->
  w_upload W = Ret temp ->
  exists mid,
    snd (verify_face_from_photo K W (Some ct) s)
    = add_events s ([EvSaveUpload; EvSpoofCheck temp] ++ mid ++ [EvUnlink temp])
    /\ List.filter is_unlink mid = [].
Proof.
  intros Hct Hg Hu. apply gallery_check_passes_listing in Hg as (x & l & Hfs).
  rewrite verify_face_from_photo_run, Hct. cbn [negb]. rewrite Hfs, Hu.
  destruct (w_spoof W temp) as [[|]|e].
  - destruct (loop_no_unlink temp D (FACE_MODEL K) (x :: l)) as (d & evs & Hl & Hun).
    rewrite Hl.
    destruct (verified d).
    + destruct (score d) as [sc|].
      * destruct (w_log W (matched_with d) true (Some sc)).
        -- exists (evs ++ [EvAudit (matched_with d) true (Some sc)]). cbn [snd].
           split; [by rewrite !add_events_app, <- !app_assoc|].
           by rewrite List.filter_app, Hun.
        -- exists evs. rewrite photo_except_state.
           split; [by rewrite !add_events_app|done].
      * exists evs. cbn [snd]. split; [by rewrite !add_events_app|done].
    + destruct (w_log W None false None).
      * exists (evs ++ [EvAudit None false None]). cbn [snd].
        split; [by rewrite !add_events_app, <- !app_assoc|].
        by rewrite List.filter_app, Hun.
      * exists evs. rewrite photo_except_state.
        split; [by rewrite !add_events_app|done].
  - by exists [].
  - exists []. by rewrite photo_except_state.
Qed.

Lemma photo_adds_events ct s :
  exists evs, snd (verify_face_from_photo K W ct s) = add_events s evs.
Proof.
  destruct ct as [c|].
  2:{ exists []. by rewrite verify_face_from_photo_run, add_events_nil. }
  destruct (Py.startswith c "image/") eqn:Hct.
  2:{ exists []. rewrite verify_face_from_photo_run, Hct. by rewrite add_events_nil. }
  destruct (fs s !! D) as [[|x l]|] eqn:Hfs.
  1,3: exists []; rewrite verify_face_from_photo_run, Hct, Hfs; by rewrite add_events_nil.
  destruct (w_upload W) as [temp|e] eqn:Hu.
  - destruct (photo_after_upload c s temp Hct) as (mid & Hs & _); [|done|by eexists].
    apply gallery_check_passes_listing. by exists x, l.
  - exists [EvSaveUpload]. rewrite verify_face_from_photo_run, Hct. cbn [negb].
    rewrite Hfs, Hu. by rewrite photo_except_state.
Qed.

End RouteFacts.

(** ** The two routes when the scan runs *)

Section SearchRuns.

Variable K : Constants.
Variable W : World.

Local Abbreviation D := (REGISTERED_FACES_DIR K).
Local Abbreviation found input entries :=
  (verdict_of K W input D (FACE_MODEL K)
     (first_accepted K W input D (FACE_MODEL K) entries)).

(** The scan as a whole: its verdict is that of the search, and the events
    it adds hold neither an audit record nor a removal. *)
Lemma loop_search input dir model entries :
  exists evs,
    (forall s, verify_face_loop K W input dir model entries s
               = (Ret (verdict_of K W input dir model
                         (first_accepted K W input dir model entries)),
                  add_events s evs))
    /\ audit_records evs = []
    /\ List.filter is_unlink evs = [].
Proof.
  destruct (loop_returns K W input dir model entries) as (d & evs & Hl & _ & Hev).
  destruct (loop_no_unlink K W input dir model entries) as (d' & evs' & Hl' & Hun).
  pose (s0 := {| fs := ∅; trace := [] |} : state).
  pose proof (loop_is_find K W input dir model entries s0) as Hfind.
  rewrite Hl in Hfind. cbn [fst] in Hfind. injection Hfind as Hd.
  pose proof (Hl s0) as H1. rewrite (Hl' s0) in H1.
  injection H1 as _ Hevs. cbn in Hevs. subst evs'.
  exists evs. split; [|done]. intros s. by rewrite Hl, Hd.
Qed.

(** The verdict of a search is the no-match dictionary or a match with its
    identity and distance. *)
Lemma found_cases input entries :
  found input entries = no_match
  \/ exists person sc,
       found input entries
       = {| verified := true; matched_with := Some person;
            score := Some sc; error := None |}.
Proof.
  unfold verdict_of.
  destruct (first_accepted K W input D (FACE_MODEL K) entries) as [person|]; [|by left].
  destruct (oracle_answer K W input D (FACE_MODEL K) person) as [r|e]; [|by left].
  right. by eexists _, _.
Qed.

(** [/api/verify] past the spoof gate. *)
Lemma verify_search_run s entries path :
  fs s !! D = Some entries ->
  gallery_check_passes K s ->
  w_capture W = Ret path -> w_spoof W path = Ret true ->
  exists evs,
    audit_records evs = []
    /\ verify K W s
       = match w_log W (matched_with (found path entries))
                 (verified (found path entries)) (score (found path entries)) with
         | Ret _ =>
             (Ret (found path entries),
              add_events s ([EvCapture; EvSpoofCheck path] ++ evs
                            ++ [EvAudit (matched_with (found path entries))
                                  (verified (found path entries))
                                  (score (found path entries))]))
         | Raise e =>
             verify_except e (add_events s ([EvCapture; EvSpoofCheck path] ++ evs))
         end.
Proof.
  intros Hfs Hg Hc Hs.
  apply gallery_check_passes_listing in Hg as (x & l & Hfs').
  assert (entries = x :: l) as -> by congruence.
  destruct (loop_search path D (FACE_MODEL K) (x :: l)) as (evs & Hl & Hev & _).
  exists evs. split; [done|].
  rewrite verify_run, Hfs, Hc, Hs, Hl.
  destruct (w_log W _ _ _); by rewrite !add_events_app.
Qed.

(** [/verify-face] past the spoof gate. *)
Lemma photo_search_run ct s entries temp :
  Py.startswith ct "image/" = true ->
  fs s !! D = Some entries ->
  gallery_check_passes K s ->
  w_upload W = Ret temp -> w_spoof W temp = Ret true ->
  exists evs,
    audit_records evs = []
    /\ verify_face_from_photo K W (Some ct) s
       = match w_log W (matched_with (found temp entries))
                 (verified (found temp entries)) (score (found temp entries)) with
         | Ret _ =>
             (Ret (client_answer (found temp entries)),
              add_events s ([EvSaveUpload; EvSpoofCheck temp] ++ evs
                            ++ [EvAudit (matched_with (found temp entries))
                                  (verified (found temp entries))
                                  (score (found temp entries));
                                EvUnlink temp]))
         | Raise e =>
             photo_except e
               (add_events s ([EvSaveUpload; EvSpoofCheck temp] ++ evs
                              ++ [EvUnlink temp]))
         end.
Proof.
  intros Hct Hfs Hg Hu Hs.
  apply gallery_check_passes_listing in Hg as (x & l & Hfs').
  assert (entries = x :: l) as -> by congruence.
  destruct (loop_search temp D (FACE_MODEL K) (x :: l)) as (evs & Hl & Hev & _).
  exists evs. split; [done|].
  rewrite verify_face_from_photo_run, Hct. cbn [negb]. rewrite Hfs, Hu, Hs, Hl.
  destruct (found_cases temp (x :: l)) as [->|(person & sc & ->)];
    cbn [verified score matched_with no_match client_answer];
    destruct (w_log W _ _ _); by rewrite !add_events_app.
Qed.

End SearchRuns.

Lemma table_world_log_returns live table : log_returns (table_world live table).
Proof. intros i v d. reflexivity. Qed.

(** C8, as stated, fails: a request that the spoof gate rejects appends no
    audit record at all. *)
Lemma rejected_attempt_leaves_no_record :
  ~ (forall K W s, length (audit_records (events_of (verify K W) s)) = 1%nat).
Proof.
  intros H.
  specialize (H spec_constants (table_world false []) (disk ["alice.jpg"])).
  vm_compute in H. discriminate H.
Qed.

(** C8, amended. With a log call that returns: a request whose scan of the
    gallery runs (matched or not matched) appends exactly one audit record,
    and the record is that of the answer: the identity found, [True] and its
    distance on a match, [None], [False] and [None] on no match. A request
    whose scan does not run (rejected by the gallery check, the content type
    check or the spoof gate, or stopped by an error before the scan) appends
    none. This holds for [/api/verify] and for [/verify-face]. *)
Theorem audit_record_when_scan_runs K W s :
  log_returns W ->
  (forall path entries,
     fs s !! REGISTERED_FACES_DIR K = Some entries ->
     gallery_check_passes K s ->
     w_capture W = Ret path -> w_spoof W path = Ret true ->
     let d := verdict_of K W path (REGISTERED_FACES_DIR K) (FACE_MODEL K)
                (first_accepted K W path (REGISTERED_FACES_DIR K) (FACE_MODEL K)
                   entries) in
     fst (verify K W s) = Ret d
     /\ audit_records (events_of (verify K W) s)
        = [EvAudit (matched_with d) (verified d) (score d)])
  /\ (~ scan_runs_verify K W s ->
      audit_records (events_of (verify K W) s) = [])
  /\ (forall ct temp entries,
        Py.startswith ct "image/" = true ->
        fs s !! REGISTERED_FACES_DIR K = Some entries ->
        gallery_check_passes K s ->
        w_upload W = Ret temp -> w_spoof W temp = Ret true ->
        let d := verdict_of K W temp (REGISTERED_FACES_DIR K) (FACE_MODEL K)
                   (first_accepted K W temp (REGISTERED_FACES_DIR K) (FACE_MODEL K)
                      entries) in
        fst (verify_face_from_photo K W (Some ct) s) = Ret (client_answer d)
        /\ audit_records (events_of (verify_face_from_photo K W (Some ct)) s)
           = [EvAudit (matched_with d) (verified d) (score d)])
  /\ (forall ct, ~ scan_runs_photo K W ct s ->
      audit_records (events_of (verify_face_from_photo K W ct) s) = []).
Proof.
  intros Hlog. split; [|split; [|split]].
  - intros path entries Hfs Hg Hc Hs d.
    destruct (verify_search_run K W s entries path Hfs Hg Hc Hs) as (evs & Hev & Hrun).
    rewrite Hlog in Hrun. fold d in Hrun.
    split; [by rewrite Hrun|].
    rewrite (events_of_add _ _ _ _ Hrun), !audit_records_app, Hev. done.
  - intros Hn. by apply verify_no_scan_no_record.
  - intros ct temp entries Hct Hfs Hg Hu Hs d.
    destruct (photo_search_run K W ct s entries temp Hct Hfs Hg Hu Hs)
      as (evs & Hev & Hrun).
    rewrite Hlog in Hrun. fold d in Hrun.
    split; [by rewrite Hrun|].
    rewrite (events_of_add _ _ _ _ Hrun), !audit_records_app, Hev. done.
  - intros ct Hn. by apply verify_face_from_photo_no_scan.
Qed.

Lemma audit_record_when_scan_runs_witness :
  fst (verify spec_constants two_faces (disk ["alice.jpg"]))
  = Ret {| verified := true; matched_with := Some "alice.jpg";
           score := Some 0.3%Q; error := None |}
  /\ audit_records (events_of (verify spec_constants two_faces) (disk ["alice.jpg"]))
     = [EvAudit (Some "alice.jpg") true (Some 0.3%Q)].
Proof.
  apply (proj1 (audit_record_when_scan_runs spec_constants two_faces
                  (disk ["alice.jpg"]) (table_world_log_returns _ _))
           "images/captured/capture.jpg" ["alice.jpg"]).
  - reflexivity.
  - vm_compute; reflexivity.
  - reflexivity.
  - reflexivity.
Defined.




(** ** The confidence of [/verify-face] *)

Lemma Qltb_ge x y : Qltb x y = false <-> (y <= x)%Q.
Proof.
  unfold Qltb. rewrite negb_false_iff. apply Qle_bool_iff.
Qed.

Ltac qltb :=
  repeat match goal with
    | H : Qltb _ _ = true |- _ => apply Qltb_lt in H
    | H : Qltb _ _ = false |- _ => apply Qltb_ge in H
    end.

(** *** Rounding to binary64 is monotone *)

(** [rne] is monotone and fixes the integers. *)
Lemma rne_monotone x y : (x <= y)%Q -> (rne x <= rne y)%Z.
Proof.
  intros Hab. unfold rne.
  set (fa := Qfloor x). set (fb := Qfloor y).
  assert (Hf : (fa <= fb)%Z) by (by apply Qfloor_resp_le).
  destruct (Z.eq_dec fa fb) as [Heq|Hne].
  - rewrite <- Heq.
    destruct (Qltb (x - inject_Z fa) (1 # 2)) eqn:A1;
      destruct (Qltb (1 # 2) (x - inject_Z fa)) eqn:A2;
      destruct (Qltb (y - inject_Z fa) (1 # 2)) eqn:B1;
      destruct (Qltb (1 # 2) (y - inject_Z fa)) eqn:B2;
      destruct (Z.even fa); qltb; try lia; exfalso; lra.
  - destruct (Qltb (x - inject_Z fa) (1 # 2));
      destruct (Qltb (1 # 2) (x - inject_Z fa));
      destruct (Qltb (y - inject_Z fb) (1 # 2));
      destruct (Qltb (1 # 2) (y - inject_Z fb));
      destruct (Z.even fa); destruct (Z.even fb); lia.
Qed.

Lemma rne_integer (n : Z) (q : Q) : (q == inject_Z n)%Q -> rne q = n.
Proof.
  intros H. unfold rne.
  rewrite (Qfloor_comp _ _ H), Qfloor_Z.
  destruct (Qltb (q - inject_Z n) (1 # 2)) eqn:E; [done|].
  qltb. lra.
Qed.

(** Powers of two. *)
Lemma pow2_pos (z : Z) : (0 < 2 ^ z)%Q.
Proof. by apply Qpower_0_lt. Qed.

Lemma pow2_le (n m : Z) : (n <= m)%Z -> (2 ^ n <= 2 ^ m)%Q.
Proof. intros H. apply Qpower_le_compat_l; [done|]. unfold Qle; simpl; lia. Qed.

Lemma pow2_lt_inv (n m : Z) : (2 ^ n < 2 ^ m)%Q -> (n < m)%Z.
Proof. intros H. apply (Qpower_lt_compat_l_inv 2); [done|]. reflexivity. Qed.

Lemma pow2_split (e k : Z) : (2 ^ e == 2 ^ k * 2 ^ (e - k))%Q.
Proof.
  rewrite <- Qpower_plus by discriminate.
  by replace (k + (e - k))%Z with e by lia.
Qed.

Lemma pow2_Z (n : Z) : (0 <= n)%Z -> (2 ^ n == inject_Z (2 ^ n))%Q.
Proof. intros H. by rewrite Zpower_Qpower. Qed.

(** [binade] gives the exponent. *)
Lemma binade_spec q : (0 < q)%Q -> (2 ^ binade q <= q < 2 ^ (binade q + 1))%Q.
Proof.
  intros Hq. destruct q as [n d].
  assert (Hn : (0 < n)%Z).
  { unfold Qlt in Hq. simpl in Hq. lia. }
  unfold binade. cbn [Qnum Qden].
  set (a := Z.log2 n). set (b := Z.log2 (Z.pos d)).
  destruct (Z.log2_spec n Hn) as [Ha1 Ha2].
  destruct (Z.log2_spec (Z.pos d) ltac:(lia)) as [Hb1 Hb2].
  fold a in Ha1, Ha2. fold b in Hb1, Hb2.
  assert (Ha0 : (0 <= a)%Z) by apply Z.log2_nonneg.
  assert (Hb0 : (0 <= b)%Z) by apply Z.log2_nonneg.
  assert (Hq' : (n # d == inject_Z n / inject_Z (Z.pos d))%Q) by apply Qmake_Qdiv.
  assert (Hd : (0 < inject_Z (Z.pos d))%Q) by (unfold Qlt; simpl; lia).
  (* bounds in Q *)
  assert (A1 : (2 ^ a <= inject_Z n)%Q).
  { rewrite pow2_Z by done. by rewrite <- Zle_Qle. }
  assert (A2 : (inject_Z n < 2 ^ (a + 1))%Q).
  { rewrite pow2_Z by lia. by rewrite <- Zlt_Qlt. }
  assert (B1 : (2 ^ b <= inject_Z (Z.pos d))%Q).
  { rewrite pow2_Z by done. by rewrite <- Zle_Qle. }
  assert (B2 : (inject_Z (Z.pos d) < 2 ^ (b + 1))%Q).
  { rewrite pow2_Z by lia. by rewrite <- Zlt_Qlt. }
  assert (Hlo : (2 ^ (a - b - 1) < n # d)%Q).
  { rewrite Hq'. apply Qlt_shift_div_l; [done|].
    apply Qlt_le_trans with (2 ^ (a - b - 1) * 2 ^ (b + 1))%Q.
    - apply Qmult_lt_l; [apply pow2_pos|done].
    - rewrite <- Qpower_plus by discriminate.
      by replace (a - b - 1 + (b + 1))%Z with a by lia. }
  assert (Hhi : (n # d < 2 ^ (a - b + 1))%Q).
  { rewrite Hq'. apply Qlt_shift_div_r; [done|].
    apply Qlt_le_trans with (2 ^ (a + 1))%Q; [done|].
    rewrite (pow2_split (a + 1) (a - b + 1)).
    replace (a + 1 - (a - b + 1))%Z with b by lia.
    apply Qmult_le_l; [apply pow2_pos|done]. }
  destruct (Qle_bool (2 ^ (a - b)) (n # d)) eqn:E.
  - apply Qle_bool_iff in E. by split.
  - replace (a - b - 1 + 1)%Z with (a - b)%Z by lia.
    split; [by apply Qlt_le_weak|].
    apply Qnot_le_lt. intros H. apply Qle_bool_iff in H. congruence.
Qed.

Lemma binade_monotone x y : (0 < x)%Q -> (x <= y)%Q -> (binade x <= binade y)%Z.
Proof.
  intros Hx Hxy.
  destruct (binade_spec x Hx) as [H1 _].
  destruct (binade_spec y ltac:(lra)) as [_ H2].
  assert (H : (binade x < binade y + 1)%Z) by (apply pow2_lt_inv; lra).
  lia.
Qed.

(** [b64_pos]: within one binade the unit is the same; from one binade to
    the next the results are separated by the power of two between them. *)
Lemma b64_pos_monotone x y : (0 < x)%Q -> (x <= y)%Q -> (b64_pos x <= b64_pos y)%Q.
Proof.
  intros Hx Hxy.
  assert (Hy : (0 < y)%Q) by lra.
  pose proof (binade_monotone x y Hx Hxy) as Hb.
  unfold b64_pos.
  set (ex := Z.max (binade x) (-1022)). set (ey := Z.max (binade y) (-1022)).
  assert (He : (ex <= ey)%Z) by (unfold ex, ey; lia).
  pose proof (pow2_pos (ex - 52)) as Hux. pose proof (pow2_pos (ey - 52)) as Huy.
  destruct (Z.eq_dec ex ey) as [Heq|Hne].
  - rewrite <- Heq. apply Qmult_le_compat_r; [|by apply Qlt_le_weak].
    rewrite <- Zle_Qle. apply rne_monotone.
    apply Qle_shift_div_l; [done|].
    rewrite Qmult_comm, Qmult_div_r; [done|]. lra.
  - assert (Hey : ey = binade y) by (unfold ex, ey in *; lia).
    destruct (binade_spec y Hy) as [Hy1 _]. rewrite <- Hey in Hy1.
    destruct (binade_spec x Hx) as [_ Hx2].
    assert (Hx3 : (x <= 2 ^ (ex + 1))%Q).
    { apply Qle_trans with (2 ^ (binade x + 1))%Q; [by apply Qlt_le_weak|].
      apply pow2_le. unfold ex. lia. }
    apply Qle_trans with (2 ^ (ex + 1))%Q; [|apply Qle_trans with (2 ^ ey)%Q].
    + rewrite (pow2_split (ex + 1) 53).
      replace (ex + 1 - 53)%Z with (ex - 52)%Z by lia.
      apply Qmult_le_compat_r; [|by apply Qlt_le_weak].
      rewrite (pow2_Z 53) by done. rewrite <- Zle_Qle.
      rewrite <- (rne_integer (2 ^ 53) (inject_Z (2 ^ 53)) ltac:(reflexivity)).
      apply rne_monotone. apply Qle_shift_div_r; [done|].
      rewrite <- (pow2_Z 53) by done.
      rewrite <- Qpower_plus by discriminate.
      by replace (53 + (ex - 52))%Z with (ex + 1)%Z by lia.
    + apply pow2_le. lia.
    + rewrite (pow2_split ey 52) at 1.
      apply Qmult_le_compat_r; [|by apply Qlt_le_weak].
      rewrite (pow2_Z 52) by done. rewrite <- Zle_Qle.
      rewrite <- (rne_integer (2 ^ 52) (inject_Z (2 ^ 52)) ltac:(reflexivity)).
      apply rne_monotone. apply Qle_shift_div_l; [done|].
      rewrite <- (pow2_Z 52) by done.
      rewrite <- Qpower_plus by discriminate.
      by replace (52 + (ey - 52))%Z with ey by lia.
Qed.

Lemma b64_pos_nonneg x : (0 < x)%Q -> (0 <= b64_pos x)%Q.
Proof.
  intros Hx. unfold b64_pos.
  set (u := (2 ^ (Z.max (binade x) (-1022) - 52))%Q).
  assert (Hu : (0 < u)%Q) by apply pow2_pos.
  apply Qmult_le_0_compat; [|by apply Qlt_le_weak].
  change 0%Q with (inject_Z 0). rewrite <- Zle_Qle.
  rewrite <- (rne_integer 0 0 ltac:(reflexivity)).
  apply rne_monotone. apply Qle_shift_div_l; [done|]. lra.
Qed.

(** [b64] is monotone. *)
Lemma b64_monotone x y : (x <= y)%Q -> (b64 x <= b64 y)%Q.
Proof.
  intros Hxy. unfold b64.
  destruct (Qltb 0 x) eqn:X1.
  - qltb. assert (Y1 : Qltb 0 y = true) by (apply Qltb_lt; lra).
    rewrite Y1. by apply b64_pos_monotone.
  - destruct (Qltb x 0) eqn:X2.
    + qltb. pose proof (b64_pos_nonneg (- x) ltac:(lra)) as Hx.
      destruct (Qltb 0 y) eqn:Y1.
      * qltb. pose proof (b64_pos_nonneg y Y1). lra.
      * destruct (Qltb y 0) eqn:Y2; [|lra].
        qltb.
        assert (H : (b64_pos (- y) <= b64_pos (- x))%Q)
          by (apply b64_pos_monotone; lra).
        lra.
    + qltb. destruct (Qltb 0 y) eqn:Y1.
      * qltb. by apply b64_pos_nonneg.
      * destruct (Qltb y 0) eqn:Y2; [qltb; lra|lra].
Qed.

Lemma b64_0 : b64 0 = 0%Q.
Proof. reflexivity. Qed.
Lemma b64_1 : (b64 1 == 1)%Q.
Proof. vm_compute. reflexivity. Qed.

Lemma b64_nonpos x : (x <= 0)%Q -> (b64 x <= 0)%Q.
Proof. intros H. apply (b64_monotone x 0) in H. by rewrite b64_0 in H. Qed.

(** *** Rounding to binary64 is accurate *)

Lemma rne_nearest q :
  (inject_Z (rne q) - q <= 1 # 2)%Q /\ (q - inject_Z (rne q) <= 1 # 2)%Q.
Proof.
  unfold rne. set (f := Qfloor q).
  assert (Hlo : (inject_Z f <= q)%Q) by apply Qfloor_le.
  assert (Hhi : (q < inject_Z f + 1)%Q).
  { pose proof (Qlt_floor q) as H. by rewrite inject_Z_plus in H. }
  assert (Hf1 : (inject_Z (f + 1) == inject_Z f + 1)%Q) by (by rewrite inject_Z_plus).
  destruct (Qltb (q - inject_Z f) (1 # 2)) eqn:H1.
  - qltb. split; lra.
  - destruct (Qltb (1 # 2) (q - inject_Z f)) eqn:H2.
    + qltb. rewrite Hf1. split; lra.
    + qltb. destruct (Z.even f); rewrite ?Hf1; split; lra.
Qed.

Lemma pow2_half (e : Z) : (2 ^ (e - 52) * (1 # 2) == 2 ^ (e - 53))%Q.
Proof.
  rewrite (pow2_split (e - 52) (e - 53)).
  replace (e - 52 - (e - 53))%Z with 1%Z by lia.
  change (2 ^ 1)%Q with 2%Q. field.
Qed.

(** Up to [2 ^ k] the rounding moves a number by at most [2 ^ (k - 53)]. *)
Lemma b64_error x k :
  (-1022 <= k)%Z -> (0 <= x <= 2 ^ k)%Q ->
  (b64 x - x <= 2 ^ (k - 53))%Q /\ (x - b64 x <= 2 ^ (k - 53))%Q.
Proof.
  intros Hk [Hx0 Hxk].
  pose proof (pow2_pos (k - 53)) as Hpk.
  unfold b64. destruct (Qltb 0 x) eqn:X1.
  2:{ qltb. destruct (Qltb x 0) eqn:X2; qltb; [exfalso; lra|split; lra]. }
  qltb. unfold b64_pos.
  set (e := Z.max (binade x) (-1022)).
  assert (He : (e <= k)%Z).
  { destruct (binade_spec x X1) as [H1 _].
    assert (H : (binade x <= k)%Z).
    { apply (Qpower_le_compat_l_inv 2); [lra|reflexivity]. }
    unfold e. lia. }
  set (u := (2 ^ (e - 52))%Q).
  assert (Hu : (0 < u)%Q) by apply pow2_pos.
  assert (Hxu : (x == x / u * u)%Q) by (field; lra).
  destruct (rne_nearest (x / u)) as [N1 N2].
  assert (Hhalf : (u * (1 # 2) <= 2 ^ (k - 53))%Q).
  { unfold u. rewrite pow2_half. apply pow2_le. lia. }
  split.
  - apply Qle_trans with (u * (1 # 2))%Q; [|done].
    assert (E1 : (inject_Z (rne (x / u)) * u - x
                  == (inject_Z (rne (x / u)) - x / u) * u)%Q) by (field; lra).
    rewrite E1.
    rewrite (Qmult_comm u). apply Qmult_le_compat_r; [done|lra].
  - apply Qle_trans with (u * (1 # 2))%Q; [|done].
    assert (E1 : (x - inject_Z (rne (x / u)) * u
                  == (x / u - inject_Z (rne (x / u))) * u)%Q) by (field; lra).
    rewrite E1.
    rewrite (Qmult_comm u). apply Qmult_le_compat_r; [done|lra].
Qed.

Lemma b64_100 : (b64 100 == 100)%Q.
Proof. vm_compute. reflexivity. Qed.

(** The binary64 value of [(1 - d) * 100] for a distance between 0 and 1. *)
Lemma percentage_accuracy d :
  (0 <= d <= 1)%Q ->
  (0 <= b64 (b64 (1 - b64 d) * 100) <= 100)%Q
  /\ (b64 (b64 (1 - b64 d) * 100) - (1 - d) * 100 <= 1 # 17592186044416)%Q
  /\ ((1 - d) * 100 - b64 (b64 (1 - b64 d) * 100) <= 1 # 17592186044416)%Q.
Proof.
  intros [Hd0 Hd1].
  assert (P0 : (2 ^ 0 == 1)%Q) by reflexivity.
  assert (P7 : (2 ^ 7 == 128)%Q) by reflexivity.
  assert (E0 : (2 ^ (0 - 53) == 1 # 9007199254740992)%Q) by reflexivity.
  assert (E7 : (2 ^ (7 - 53) == 1 # 70368744177664)%Q) by reflexivity.
  set (a := b64 d).
  assert (Ha : (0 <= a <= 1)%Q).
  { split.
    - rewrite <- b64_0. by apply b64_monotone.
    - rewrite <- b64_1. by apply b64_monotone. }
  destruct (b64_error d 0 ltac:(lia) ltac:(rewrite P0; split; lra)) as [A1 A2].
  fold a in A1, A2. rewrite E0 in A1, A2.
  set (b := b64 (1 - a)).
  assert (Hb : (0 <= b <= 1)%Q).
  { split.
    - rewrite <- b64_0. apply b64_monotone. lra.
    - rewrite <- b64_1. apply b64_monotone. lra. }
  destruct (b64_error (1 - a) 0 ltac:(lia) ltac:(rewrite P0; split; lra)) as [B1 B2].
  fold b in B1, B2. rewrite E0 in B1, B2.
  set (c := b64 (b * 100)).
  assert (Hc : (0 <= c <= 100)%Q).
  { split.
    - rewrite <- b64_0. apply b64_monotone. lra.
    - rewrite <- b64_100. apply b64_monotone. lra. }
  destruct (b64_error (b * 100) 7 ltac:(lia) ltac:(rewrite P7; split; lra)) as [C1 C2].
  fold c in C1, C2. rewrite E7 in C1, C2.
  split; [done|]. split; lra.
Qed.

(** *** Binary64 numbers are fixed *)

Lemma binade_unique y k :
  (0 < y)%Q -> (2 ^ k <= y)%Q -> (y < 2 ^ (k + 1))%Q -> binade y = k.
Proof.
  intros Hy H1 H2. destruct (binade_spec y Hy) as [B1 B2].
  assert (binade y < k + 1)%Z by (apply pow2_lt_inv; lra).
  assert (k < binade y + 1)%Z by (apply pow2_lt_inv; lra).
  lia.
Qed.

Lemma pow2_shift (e k : Z) : (0 <= k)%Z -> (inject_Z (2 ^ k) * 2 ^ (e - k) == 2 ^ e)%Q.
Proof. intros Hk. rewrite <- pow2_Z by done. symmetry. apply pow2_split. Qed.

(** The result of the rounding is its own rounding. *)
Lemma b64_pos_fixed x :
  (0 < x)%Q -> (0 < b64_pos x)%Q -> (b64_pos (b64_pos x) == b64_pos x)%Q.
Proof.
  intros Hx.
  set (e := Z.max (binade x) (-1022)). set (u := (2 ^ (e - 52))%Q).
  set (n := rne (x / u)).
  change (b64_pos x) with (inject_Z n * u)%Q. intros Hy.
  assert (Hu : (0 < u)%Q) by apply pow2_pos.
  destruct (binade_spec x Hx) as [X1 X2].
  assert (Hn0 : (0 < n)%Z).
  { rewrite Zlt_Qlt. change (inject_Z 0) with 0%Q.
    destruct (Qlt_le_dec 0 (inject_Z n)) as [H|H]; [done|].
    exfalso. assert (inject_Z n * u <= 0 * u)%Q by (apply Qmult_le_compat_r; lra). lra. }
  assert (Hn53 : (n <= 2 ^ 53)%Z).
  { rewrite <- (rne_integer (2 ^ 53) (inject_Z (2 ^ 53)) ltac:(reflexivity)).
    apply rne_monotone. apply Qle_shift_div_r; [done|].
    assert (Hu53 : (inject_Z (2 ^ 53) * u == 2 ^ (e + 1))%Q).
    { unfold u. replace (e - 52)%Z with (e + 1 - 53)%Z by lia.
      apply pow2_shift. lia. }
    rewrite Hu53.
    apply Qle_trans with (2 ^ (binade x + 1))%Q; [lra|]. apply pow2_le. unfold e. lia. }
  (* the value of a multiple of [u] in the binade of [u] *)
  assert (Hsame : Z.max (binade (inject_Z n * u)) (-1022) = e ->
                  (b64_pos (inject_Z n * u) == inject_Z n * u)%Q).
  { intros He. unfold b64_pos. rewrite He. fold u.
    rewrite (rne_integer n); [reflexivity|]. field. lra. }
  destruct (Z.eq_dec n (2 ^ 53)%Z) as [Htop|Hntop].
  - (* the significand overflows into the next binade *)
    assert (Hv : (inject_Z n * u == 2 ^ (e + 1))%Q).
    { rewrite Htop. unfold u.
      replace (e - 52)%Z with (e + 1 - 53)%Z by lia. by apply pow2_shift. }
    assert (Hb : binade (inject_Z n * u) = (e + 1)%Z).
    { apply binade_unique; [done|lra|]. rewrite Hv.
      apply Qpower_lt_compat_l; [lia|reflexivity]. }
    unfold b64_pos. rewrite Hb.
    replace (Z.max (e + 1) (-1022)) with (e + 1)%Z by (unfold e; lia).
    rewrite (rne_integer (2 ^ 52)).
    + rewrite Hv. replace (e + 1 - 52)%Z with (e + 1 - 52)%Z by lia.
      by apply pow2_shift.
    + rewrite Hv, <- (pow2_shift (e + 1) 52) by lia.
      field. pose proof (pow2_pos (e + 1 - 52)). lra.
  - apply Hsame.
    assert (Hlt : (inject_Z n * u < 2 ^ (e + 1))%Q).
    { rewrite <- (pow2_shift (e + 1) 53) by lia.
      replace (e + 1 - 53)%Z with (e - 52)%Z by lia. fold u.
      apply Qmult_lt_r; [done|]. rewrite <- Zlt_Qlt. lia. }
    destruct (Z_le_gt_dec (-1022) (binade x)) as [Hnorm|Hsub].
    + (* normal: the significand is at least 2 ^ 52 *)
      assert (He : e = binade x) by (unfold e; lia).
      assert (Hn52 : (2 ^ 52 <= n)%Z).
      { rewrite <- (rne_integer (2 ^ 52) (inject_Z (2 ^ 52)) ltac:(reflexivity)).
        apply rne_monotone. apply Qle_shift_div_l; [done|].
        unfold u. rewrite pow2_shift by lia. by rewrite He. }
      assert (Hge : (2 ^ e <= inject_Z n * u)%Q).
      { rewrite <- (pow2_shift e 52) by lia. fold u.
        apply Qmult_le_compat_r; [|lra]. by rewrite <- Zle_Qle. }
      rewrite (binade_unique _ e Hy Hge Hlt). unfold e. lia.
    + (* subnormal *)
      assert (He : e = (-1022)%Z) by (unfold e; lia).
      destruct (binade_spec _ Hy) as [Y1 _].
      assert (Hb : (binade (inject_Z n * u) < e + 1)%Z) by (apply pow2_lt_inv; lra).
      lia.
Qed.

Lemma b64_fixed x : (b64 (b64 x) == b64 x)%Q.
Proof.
  unfold b64 at 2 3.
  destruct (Qltb 0 x) eqn:X1.
  - qltb. pose proof (b64_pos_nonneg x X1) as H0.
    unfold b64. destruct (Qltb 0 (b64_pos x)) eqn:Y1.
    + qltb. by apply b64_pos_fixed.
    + destruct (Qltb (b64_pos x) 0) eqn:Y2; qltb; lra.
  - destruct (Qltb x 0) eqn:X2; [|reflexivity].
    qltb. pose proof (b64_pos_nonneg (- x) ltac:(lra)) as H0.
    unfold b64. destruct (Qltb 0 (- b64_pos (- x))) eqn:Y1; [qltb; lra|].
    destruct (Qltb (- b64_pos (- x)) 0) eqn:Y2; [|qltb; lra].
    qltb.
    assert (Hdn : (- - b64_pos (- x) == b64_pos (- x))%Q) by ring.
    assert (Hp : (0 < b64_pos (- x))%Q) by lra.
    pose proof (b64_pos_fixed (- x) ltac:(lra) Hp) as Hfix.
    assert (Hcomp : (b64_pos (- - b64_pos (- x)) == b64_pos (b64_pos (- x)))%Q).
    { apply Qle_antisym; apply b64_pos_monotone; lra. }
    rewrite Hcomp, Hfix. reflexivity.
Qed.

(** *** The confidence *)

(** [max(0.0, min(100.0, z))] is the spec's [clamp(0, 100, z)]. *)
Lemma max_min_clamp z : (py_max 0 (py_min 100 z) == clamp 0 100 z)%Q.
Proof.
  unfold py_max, py_min, clamp.
  destruct (Qltb z 100) eqn:H1; destruct (Qltb z 0) eqn:H2;
    destruct (Qltb 100 z) eqn:H3;
    try change (Qltb 0 100) with true; cbv iota;
    try destruct (Qltb 0 z) eqn:H4; qltb; lra.
Qed.

Lemma confidence_of_clamp d :
  (confidence_of d == clamp 0 100 (b64 (b64 (1 - b64 d) * 100)))%Q.
Proof. apply max_min_clamp. Qed.

(** The confidence is the spec's [clamp(0, 100, (1 - d) * 100)] up to the
    rounding of binary64, for every distance. *)
Lemma confidence_of_accuracy d :
  (confidence_of d - clamp 0 100 ((1 - d) * 100) <= 1 # 17592186044416)%Q
  /\ (clamp 0 100 ((1 - d) * 100) - confidence_of d <= 1 # 17592186044416)%Q.
Proof.
  unfold confidence_of.
  set (z := b64 (b64 (1 - b64 d) * 100)).
  rewrite max_min_clamp.
  destruct (Qlt_le_dec d 0) as [Hneg|Hd0].
  - assert (Hz : (100 <= z)%Q).
    { unfold z. rewrite <- b64_100 at 1. apply b64_monotone.
      assert (H1 : (1 <= b64 (1 - b64 d))%Q).
      { rewrite <- b64_1 at 1. apply b64_monotone.
        pose proof (b64_nonpos d ltac:(lra)). lra. }
      lra. }
    unfold clamp.
    destruct (Qltb z 0) eqn:Z1; destruct (Qltb 100 z) eqn:Z2;
      destruct (Qltb ((1 - d) * 100) 0) eqn:X1;
      destruct (Qltb 100 ((1 - d) * 100)) eqn:X2; qltb; split; lra.
  - destruct (Qlt_le_dec 1 d) as [Hbig|Hd1].
    + assert (Hz : (z <= 0)%Q).
      { unfold z. apply b64_nonpos.
        assert (H1 : (1 <= b64 d)%Q).
        { rewrite <- b64_1. apply b64_monotone. lra. }
        pose proof (b64_nonpos (1 - b64 d) ltac:(lra)). lra. }
      unfold clamp.
      destruct (Qltb z 0) eqn:Z1; destruct (Qltb 100 z) eqn:Z2;
        destruct (Qltb ((1 - d) * 100) 0) eqn:X1;
        destruct (Qltb 100 ((1 - d) * 100)) eqn:X2; qltb; split; lra.
    + destruct (percentage_accuracy d ltac:(split; lra)) as (Hz & A1 & A2).
      fold z in Hz, A1, A2. unfold clamp.
      destruct (Qltb z 0) eqn:Z1; destruct (Qltb 100 z) eqn:Z2;
        destruct (Qltb ((1 - d) * 100) 0) eqn:X1;
        destruct (Qltb 100 ((1 - d) * 100)) eqn:X2; qltb; split; lra.
Qed.

(** [round1 x] is a number of tenths, one of the nearest to [x]. *)
Lemma round1_nearest x :
  (round1 x - x <= 1 # 20)%Q /\ (x - round1 x <= 1 # 20)%Q.
Proof.
  unfold round1.
  set (y := (x * 10)%Q). set (f := Qfloor y).
  assert (Hlo : (inject_Z f <= y)%Q) by apply Qfloor_le.
  assert (Hhi : (y < inject_Z f + 1)%Q).
  { pose proof (Qlt_floor y) as H. by rewrite inject_Z_plus in H. }
  assert (Hy : (x == y * (1 # 10))%Q) by (unfold y; field).
  assert (Hf : forall n : Z, (n # 10 == inject_Z n * (1 # 10))%Q).
  { intros n. rewrite Qmake_Qdiv. field. }
  assert (Hf1 : (inject_Z (f + 1) == inject_Z f + 1)%Q) by (by rewrite inject_Z_plus).
  destruct (Qltb (y - inject_Z f) (1 # 2)) eqn:H1.
  - qltb. rewrite Hf. split; lra.
  - destruct (Qltb (1 # 2) (y - inject_Z f)) eqn:H2.
    + qltb. rewrite Hf, Hf1. split; lra.
    + qltb. destruct (Z.even f); rewrite Hf, ?Hf1; split; lra.
Qed.

Lemma confidence_of_far d : (1 <= d)%Q -> confidence_of d = 0%Q.
Proof.
  intros H. unfold confidence_of, py_max, py_min.
  set (y := b64 (b64 (1 - b64 d) * 100)).
  assert (Hy : (y <= 0)%Q).
  { apply b64_nonpos.
    assert (H1 : (1 <= b64 d)%Q).
    { rewrite <- b64_1. by apply b64_monotone. }
    pose proof (b64_nonpos (1 - b64 d) ltac:(lra)). lra. }
  destruct (Qltb y 100) eqn:H1; [|qltb; lra].
  destruct (Qltb 0 y) eqn:H2; [qltb; lra|reflexivity].
Qed.

(** What [/verify-face] can return. *)
Lemma verify_face_from_photo_returns K W ct s c :
  fst (verify_face_from_photo K W ct s) = Ret c ->
  c = client_no_match
  \/ exists temp entries person r,
       w_upload W = Ret temp
       /\ fs s !! REGISTERED_FACES_DIR K = Some entries
       /\ In person entries
       /\ oracle_answer K W temp (REGISTERED_FACES_DIR K) (FACE_MODEL K) person = Ret r
       /\ df_verified r = true
       /\ (df_distance r < FACE_DISTANCE_THRESHOLD K)%Q
       /\ c = {| c_match := true;
                 c_confidence := round1 (confidence_of (df_distance r)) |}.
Proof.
  rewrite verify_face_from_photo_run.
  destruct ct as [ct|]; [|discriminate].
  destruct (Py.startswith ct "image/"); cbn [negb]; [|discriminate].
  destruct (fs s !! REGISTERED_FACES_DIR K) as [[|x l]|] eqn:Hfs;
    [discriminate| |discriminate].
  destruct (w_upload W) as [temp|e] eqn:Hu.
  2:{ destruct (photo_except_raises e (add_events s [EvSaveUpload])) as (? & ? & ->).
      discriminate. }
  destruct (w_spoof W temp) as [[|]|e] eqn:Hsp.
  - destruct (loop_returns K W temp (REGISTERED_FACES_DIR K) (FACE_MODEL K) (x :: l))
      as (d & evs & Hl & Hd & _).
    rewrite Hl.
    destruct Hd as [->|(person & r & Hin & Hid & Hr & Hv & Hlt & ->)];
      cbn [verified score matched_with no_match].
    + destruct (w_log W None false None).
      * simpl. intros [= <-]. by left.
      * destruct (photo_except_raises e
          (add_events (add_events (add_events s [EvSaveUpload; EvSpoofCheck temp]) evs)
             [EvUnlink temp])) as (? & ? & ->).
        discriminate.
    + destruct (w_log W (Some person) true (Some (df_distance r))).
      * simpl. intros [= <-]. right. by exists temp, (x :: l), person, r.
      * destruct (photo_except_raises e
          (add_events (add_events (add_events s [EvSaveUpload; EvSpoofCheck temp]) evs)
             [EvUnlink temp])) as (? & ? & ->).
        discriminate.
  - simpl. intros [= <-]. by left.
  - destruct (photo_except_raises e
      (add_events s [EvSaveUpload; EvSpoofCheck temp; EvUnlink temp])) as (? & ? & ->).
    discriminate.
Qed.

(** C5, as stated, fails: for the distance 0.1234 the handler answers with the
    confidence 87.7, which is not [clamp(0, 100, (1 - 0.1234) * 100)] = 87.66. *)
Lemma confidence_is_not_the_clamped_value :
  fst (verify_face_from_photo spec_constants
         (table_world true [("images/registered/alice.jpg", answer true 0.1234)])
         (Some "image/jpeg") (disk ["alice.jpg"]))
  = Ret {| c_match := true; c_confidence := (877 # 10)%Q |}
  /\ ~ (877 # 10 == clamp 0 100 ((1 - 0.1234) * 100))%Q.
Proof.
  split; [vm_compute; reflexivity|].
  vm_compute. discriminate.
Qed.

(** The value that is rounded to one decimal is the binary64 one: for the
    distance 0.0015 it lies above 99.85 and the answer is 99.9, where the
    exact 99.85 would go to the even neighbour 99.8. *)
Example confidence_is_computed_in_binary64 :
  fst (verify_face_from_photo spec_constants
         (table_world true [("images/registered/alice.jpg", answer true 0.0015)])
         (Some "image/jpeg") (disk ["alice.jpg"]))
  = Ret {| c_match := true; c_confidence := (999 # 10)%Q |}
  /\ (9985 # 100 < confidence_of 0.0015)%Q
  /\ round1 (clamp 0 100 ((1 - 0.0015) * 100)) = (998 # 10)%Q.
Proof.
  split; [vm_compute; reflexivity|]. split; vm_compute; reflexivity.
Qed.

(** Every dictionary that [/verify-face] returns, by the search of the
    engine. *)
Lemma verify_face_from_photo_answers K W ct s c :
  fst (verify_face_from_photo K W ct s) = Ret c ->
  c = client_no_match
  \/ exists temp entries person r,
       w_upload W = Ret temp
       /\ fs s !! REGISTERED_FACES_DIR K = Some entries
       /\ first_accepted K W temp (REGISTERED_FACES_DIR K) (FACE_MODEL K) entries
          = Some person
       /\ oracle_answer K W temp (REGISTERED_FACES_DIR K) (FACE_MODEL K) person = Ret r
       /\ c = {| c_match := true;
                 c_confidence := round1 (confidence_of (df_distance r)) |}.
Proof.
  rewrite verify_face_from_photo_run.
  destruct ct as [ct|]; [|discriminate].
  destruct (Py.startswith ct "image/"); cbn [negb]; [|discriminate].
  destruct (fs s !! REGISTERED_FACES_DIR K) as [[|x l]|] eqn:Hfs;
    [discriminate| |discriminate].
  destruct (w_upload W) as [temp|e] eqn:Hu.
  2:{ destruct (photo_except_raises e (add_events s [EvSaveUpload])) as (? & ? & ->).
      discriminate. }
  destruct (w_spoof W temp) as [[|]|e] eqn:Hsp.
  - destruct (loop_search K W temp (REGISTERED_FACES_DIR K) (FACE_MODEL K) (x :: l))
      as (evs & Hl & _).
    rewrite Hl.
    destruct (first_accepted K W temp (REGISTERED_FACES_DIR K) (FACE_MODEL K) (x :: l))
      as [person|] eqn:Hfound; cbn [verdict_of].
    + destruct (oracle_answer K W temp (REGISTERED_FACES_DIR K) (FACE_MODEL K) person)
        as [r|e] eqn:Hr; cbn [verified score matched_with no_match].
      * destruct (w_log W (Some person) true (Some (df_distance r))).
        -- simpl. intros [= <-]. right. by exists temp, (x :: l), person, r.
        -- match goal with |- context [photo_except e ?s1] =>
             destruct (photo_except_raises e s1) as (? & ? & ->) end.
           discriminate.
      * destruct (w_log W None false None).
        -- simpl. intros [= <-]. by left.
        -- match goal with |- context [photo_except e0 ?s1] =>
             destruct (photo_except_raises e0 s1) as (? & ? & ->) end.
           discriminate.
    + cbn [verified score matched_with no_match].
      destruct (w_log W None false None).
      * simpl. intros [= <-]. by left.
      * match goal with |- context [photo_except e ?s1] =>
          destruct (photo_except_raises e s1) as (? & ? & ->) end.
        discriminate.
  - simpl. intros [= <-]. by left.
  - destruct (photo_except_raises e
      (add_events s [EvSaveUpload; EvSpoofCheck temp; EvUnlink temp])) as (? & ? & ->).
    discriminate.
Qed.

(** C5, amended. Every dictionary that [/verify-face] returns is either
    [{match: False, confidence: 0.0}] or [{match: True, confidence: c}],
    where [c] is [max(0.0, min(100.0, (1 - d) * 100))], computed in binary64
    and rounded to one decimal, for the distance [d] that the oracle reported
    for the identity the scan found. When the request gets as far as the scan
    (an image upload, a gallery with entries, an upload that passes the spoof
    gate) and the log call returns, a match is answered with the latter and
    no match with the former. The value that is rounded is [clamp(0, 100, x)]
    for the binary64 result [x] of [(1 - d) * 100]; it is within [2 ^ -44] of
    the exact [clamp(0, 100, (1 - d) * 100)], and the rounded value is a
    number of tenths at most 0.05 away from it; distance 0.0 gives 100.0, and
    every distance from 1.0 on gives 0.0. *)
Theorem confidence_mapping K W s :
  (forall ct c,
     fst (verify_face_from_photo K W ct s) = Ret c ->
     c = client_no_match
     \/ exists temp entries person r,
          w_upload W = Ret temp
          /\ fs s !! REGISTERED_FACES_DIR K = Some entries
          /\ first_accepted K W temp (REGISTERED_FACES_DIR K) (FACE_MODEL K) entries
             = Some person
          /\ oracle_answer K W temp (REGISTERED_FACES_DIR K) (FACE_MODEL K) person
             = Ret r
          /\ c = {| c_match := true;
                    c_confidence := round1 (confidence_of (df_distance r)) |})
  /\ (forall ct entries temp,
        log_returns W ->
        Py.startswith ct "image/" = true ->
        fs s !! REGISTERED_FACES_DIR K = Some entries ->
        gallery_check_passes K s ->
        w_upload W = Ret temp -> w_spoof W temp = Ret true ->
        (forall person,
           first_accepted K W temp (REGISTERED_FACES_DIR K) (FACE_MODEL K) entries
           = Some person ->
           exists r,
             oracle_answer K W temp (REGISTERED_FACES_DIR K) (FACE_MODEL K) person
             = Ret r
             /\ fst (verify_face_from_photo K W (Some ct) s)
                = Ret {| c_match := true;
                         c_confidence := round1 (confidence_of (df_distance r)) |})
        /\ (first_accepted K W temp (REGISTERED_FACES_DIR K) (FACE_MODEL K) entries
            = None ->
            fst (verify_face_from_photo K W (Some ct) s) = Ret client_no_match))
  /\ (forall d, confidence_of d == clamp 0 100 (b64 (b64 (1 - b64 d) * 100)))%Q
  /\ (forall d,
        confidence_of d - clamp 0 100 ((1 - d) * 100) <= 1 # 17592186044416
        /\ clamp 0 100 ((1 - d) * 100) - confidence_of d <= 1 # 17592186044416)%Q
  /\ (forall x, round1 x - x <= 1 # 20 /\ x - round1 x <= 1 # 20)%Q
  /\ (round1 (confidence_of 0) == 100)%Q
  /\ (forall d, 1 <= d -> round1 (confidence_of d) == 0)%Q.
Proof.
  split; [|split; [|split; [|split; [|split; [|split]]]]].
  - intros ct c. apply verify_face_from_photo_answers.
  - intros ct entries temp Hlog Hct Hfs Hg Hu Hs.
    destruct (photo_search_run K W ct s entries temp Hct Hfs Hg Hu Hs)
      as (evs & _ & Hrun).
    rewrite Hlog in Hrun. split.
    + intros person Hfound. rewrite Hrun, Hfound. cbn [fst verdict_of].
      apply List.find_some in Hfound as [_ Hacc].
      apply andb_true_iff in Hacc as [_ Hacc]. unfold oracle_accepts in Hacc.
      destruct (oracle_answer K W temp (REGISTERED_FACES_DIR K) (FACE_MODEL K) person)
        as [r|e]; [|discriminate].
      by exists r.
    + intros Hnone. by rewrite Hrun, Hnone.
  - apply confidence_of_clamp.
  - apply confidence_of_accuracy.
  - apply round1_nearest.
  - vm_compute. reflexivity.
  - intros d Hd. rewrite (confidence_of_far d Hd). vm_compute. reflexivity.
Qed.

Lemma confidence_mapping_witness :
  exists r,
    oracle_answer spec_constants
      (table_world true [("images/registered/alice.jpg", answer true 0.25)])
      "/tmp/upload.jpg" "images/registered" "Facenet" "alice.jpg" = Ret r
    /\ fst (verify_face_from_photo spec_constants
              (table_world true [("images/registered/alice.jpg", answer true 0.25)])
              (Some "image/jpeg") (disk ["alice.jpg"]))
       = Ret {| c_match := true;
                c_confidence := round1 (confidence_of (df_distance r)) |}.
Proof.
  destruct (proj1 (proj2 (confidence_mapping spec_constants
              (table_world true [("images/registered/alice.jpg", answer true 0.25)])
              (disk ["alice.jpg"])))
              "image/jpeg" ["alice.jpg"] "/tmp/upload.jpg") as [H _].
  - apply table_world_log_returns.
  - reflexivity.
  - reflexivity.
  - vm_compute; reflexivity.
  - reflexivity.
  - reflexivity.
  - apply (H "alice.jpg"). vm_compute; reflexivity.
Defined.

(** ** Enrollment and listing *)

Lemma append_cons c r b : String c r +:+ b = String c (r +:+ b).
Proof. reflexivity. Qed.

Lemma append_empty b : EmptyString +:+ b = b.
Proof. reflexivity. Qed.

(** *** Normalization of the name *)

Lemma length_replace a b s : String.length (Py.replace a b s) = String.length s.
Proof. induction s as [|c r IH]; simpl; congruence. Qed.

Lemma contains_replace_old a b s : a <> b -> contains a (Py.replace a b s) = false.
Proof.
  intros Hab. induction s as [|c r IH]; [done|]. simpl. rewrite IH, orb_false_r.
  destruct (Ascii.eqb_spec c a) as [->|Hca].
  - apply Ascii.eqb_neq. congruence.
  - by apply Ascii.eqb_neq.
Qed.

Lemma contains_replace_other c a b s :
  c <> b -> contains c s = false -> contains c (Py.replace a b s) = false.
Proof.
  intros Hcb. induction s as [|x r IH]; [done|]. simpl.
  intros H. apply orb_false_iff in H as [Hx Hr]. rewrite (IH Hr), orb_false_r.
  destruct (Ascii.eqb x a); [|done]. apply Ascii.eqb_neq. congruence.
Qed.

Lemma clean_name_length request_name :
  String.length (clean_name request_name) = String.length (Py.strip request_name).
Proof. unfold clean_name. by rewrite !length_replace. Qed.

Lemma clean_name_safe request_name :
  contains " " (clean_name request_name) = false
  /\ contains "/" (clean_name request_name) = false
  /\ contains "\" (clean_name request_name) = false.
Proof.
  unfold clean_name. repeat split.
  - do 2 (apply contains_replace_other; [discriminate|]).
    apply contains_replace_old. discriminate.
  - apply contains_replace_other; [discriminate|].
    apply contains_replace_old. discriminate.
  - apply contains_replace_old. discriminate.
Qed.

Lemma rstrip_cons c r :
  Py.rstrip (String c r)
  = match Py.rstrip r with
    | EmptyString => if Py.is_space c then EmptyString else String c EmptyString
    | r' => String c r'
    end.
Proof. reflexivity. Qed.

Lemma rstrip_idempotent s : Py.rstrip (Py.rstrip s) = Py.rstrip s.
Proof.
  induction s as [|c r IH]; [done|]. rewrite rstrip_cons.
  destruct (Py.rstrip r) as [|a r'] eqn:E.
  - destruct (Py.is_space c) eqn:Hc; [done|]. rewrite rstrip_cons. cbn [Py.rstrip].
    by rewrite Hc.
  - rewrite rstrip_cons, IH. done.
Qed.

Lemma lstrip_head s a r : Py.lstrip s = String a r -> Py.is_space a = false.
Proof.
  induction s as [|c t IH]; [discriminate|]. cbn [Py.lstrip].
  destruct (Py.is_space c) eqn:Hc; [done|]. by intros [= <- _].
Qed.

Lemma rstrip_keeps_head a r :
  Py.is_space a = false -> exists r', Py.rstrip (String a r) = String a r'.
Proof.
  intros Ha. rewrite rstrip_cons. destruct (Py.rstrip r); [|by eexists].
  rewrite Ha. by eexists.
Qed.

Lemma strip_lstrip_fixed s : Py.lstrip (Py.strip s) = Py.strip s.
Proof.
  unfold Py.strip. destruct (Py.lstrip s) as [|a r] eqn:E; [done|].
  destruct (rstrip_keeps_head a r (lstrip_head _ _ _ E)) as (r' & ->).
  cbn [Py.lstrip]. by rewrite (lstrip_head _ _ _ E).
Qed.

Lemma replace_keeps_lstrip old new s :
  Py.is_space new = false ->
  Py.lstrip s = s -> Py.lstrip (Py.replace old new s) = Py.replace old new s.
Proof.
  intros Hnew H. destruct s as [|a r]; [done|].
  pose proof (lstrip_head _ _ _ H) as Ha. cbn [Py.replace Py.lstrip].
  destruct (Ascii.eqb a old); by rewrite ?Hnew, ?Ha.
Qed.

Lemma replace_keeps_rstrip old new s :
  Py.is_space new = false ->
  Py.rstrip s = s -> Py.rstrip (Py.replace old new s) = Py.replace old new s.
Proof.
  intros Hnew. induction s as [|c r IH]; [done|].
  rewrite rstrip_cons. intros H. cbn [Py.replace]. rewrite rstrip_cons.
  destruct (Py.rstrip r) as [|a r'] eqn:E.
  - destruct (Py.is_space c) eqn:Hc; [discriminate|]. injection H as <-.
    cbn [Py.replace Py.rstrip]. destruct (Ascii.eqb c old); by rewrite ?Hnew, ?Hc.
  - injection H as Hr. rewrite IH by done. rewrite <- Hr. cbn [Py.replace]. done.
Qed.

Lemma replace_absent old new s :
  contains old s = false -> Py.replace old new s = s.
Proof.
  induction s as [|c r IH]; [done|]. cbn [contains Py.replace]. intros H.
  apply orb_false_iff in H as [Hc Hr]. by rewrite Hc, IH.
Qed.

Lemma clean_name_is_trimmed request_name :
  Py.strip (clean_name request_name) = clean_name request_name.
Proof.
  assert (Hl : Py.lstrip (clean_name request_name) = clean_name request_name).
  { unfold clean_name. do 3 (apply replace_keeps_lstrip; [done|]).
    apply strip_lstrip_fixed. }
  assert (Hr : Py.rstrip (clean_name request_name) = clean_name request_name).
  { unfold clean_name. do 3 (apply replace_keeps_rstrip; [done|]).
    unfold Py.strip. apply rstrip_idempotent. }
  unfold Py.strip at 1. by rewrite Hl, Hr.
Qed.

(** What [strip] takes away is white space, at the two ends. *)
Lemma lstrip_split s :
  exists pre, s = pre +:+ Py.lstrip s /\ Py.all_chars Py.is_space pre = true.
Proof.
  induction s as [|c r (pre & IH & Hpre)]; [by exists EmptyString|].
  cbn [Py.lstrip]. destruct (Py.is_space c) eqn:Hc.
  - exists (String c pre). rewrite append_cons, <- IH. split; [done|].
    cbn [Py.all_chars]. by rewrite Hc, Hpre.
  - by exists EmptyString.
Qed.

Lemma rstrip_split s :
  exists post, s = Py.rstrip s +:+ post /\ Py.all_chars Py.is_space post = true.
Proof.
  induction s as [|c r (post & IH & Hpost)]; [by exists EmptyString|].
  rewrite rstrip_cons. destruct (Py.rstrip r) as [|a r'] eqn:E.
  - rewrite append_empty in IH. subst post.
    destruct (Py.is_space c) eqn:Hc.
    + exists (String c r). rewrite append_empty. split; [done|].
      cbn [Py.all_chars]. by rewrite Hc, Hpost.
    + exists r. by rewrite append_cons, append_empty.
  - exists post. rewrite append_cons, <- IH. done.
Qed.

Lemma append_last_nonempty r c : r +:+ String c EmptyString <> EmptyString.
Proof. by destruct r. Qed.

Lemma rstrip_last s r c :
  Py.rstrip s = r +:+ String c EmptyString -> Py.is_space c = false.
Proof.
  revert r. induction s as [|a t IH]; intros r.
  - cbn [Py.rstrip]. intros H. symmetry in H. by apply append_last_nonempty in H.
  - rewrite rstrip_cons. destruct (Py.rstrip t) as [|b t'] eqn:E.
    + destruct (Py.is_space a) eqn:Ha.
      * intros H. symmetry in H. by apply append_last_nonempty in H.
      * destruct r as [|x r'].
        -- rewrite append_empty. by intros [= <-].
        -- rewrite append_cons. intros [= _ H]. symmetry in H.
           by apply append_last_nonempty in H.
    + destruct r as [|x r'].
      * rewrite append_empty. discriminate.
      * rewrite append_cons. intros [= _ H]. by apply (IH r').
Qed.

Lemma strip_split s :
  exists pre post,
    s = pre +:+ (Py.strip s +:+ post)
    /\ Py.all_chars Py.is_space pre = true
    /\ Py.all_chars Py.is_space post = true.
Proof.
  destruct (lstrip_split s) as (pre & Hs & Hpre).
  destruct (rstrip_split (Py.lstrip s)) as (post & Hl & Hpost).
  exists pre, post. unfold Py.strip. by rewrite <- Hl.
Qed.

Lemma strip_head s c r : Py.strip s = String c r -> Py.is_space c = false.
Proof. intros H. rewrite <- strip_lstrip_fixed in H. by apply lstrip_head in H. Qed.

(** The three replacements, character by character. *)
Lemma replace_is_map s :
  Py.replace "\" "_" (Py.replace "/" "_" (Py.replace " " "_" s))
  = map_chars normal_char s.
Proof.
  induction s as [|c r IH]; [done|].
  cbn [Py.replace map_chars]. rewrite IH. f_equal. unfold normal_char.
  destruct (Ascii.eqb_spec c " ") as [->|H1]; [done|].
  destruct (Ascii.eqb_spec c "/") as [->|H2]; [done|].
  by destruct (Ascii.eqb_spec c "\") as [->|H3].
Qed.

(** C6, as stated, fails. The normalization keeps the case of the letters:
    ["jane doe"] becomes [jane_doe], not [Jane_Doe], and the test for a
    duplicate does not find [jane_doe.jpg] where [Jane_Doe.jpg] is stored. It
    replaces, one for one: a run of spaces is not collapsed, a separator is
    not stripped. And the route as served stores and rejects nothing: its
    wrapper raises for every request, for ["Jane Doe"] on an empty gallery as
    for ["jane doe"] after it, with status 500. *)
Lemma lowercase_name_is_no_duplicate :
  clean_name "Jane Doe" = "Jane_Doe"
  /\ clean_name "jane doe" = "jane_doe"
  /\ fst (os_path_exists_in "images/registered" (clean_name "jane doe" +:+ ".jpg")
            (disk ["Jane_Doe.jpg"])) = Ret false
  /\ clean_name "Jane  Doe" = "Jane__Doe"
  /\ clean_name "Jane/Doe" = "Jane_Doe"
  /\ register_face studio "Jane Doe" (disk [])
     = (Raise (Exception
          "parameter `request` must be an instance of starlette.requests.Request"),
        disk [])
  /\ http_status (fst (register_face studio "jane doe" (disk ["Jane_Doe.jpg"])))
     = 500%Z.
Proof. repeat split; vm_compute; reflexivity. Qed.

(** C6, amended. The normalization of the name trims it, taking white space
    away at the two ends and nothing else, and then puts an underscore for
    every space, slash and backslash, one character for one: nothing is
    collapsed or removed, every other character and the case of the letters
    are kept, and no space or path separator is left. ["Jane Doe"] becomes
    [Jane_Doe], ["jane doe"] becomes [jane_doe], ["Jane  Doe"] becomes
    [Jane__Doe]. *)
Theorem clean_name_trims_and_replaces request_name :
  clean_name request_name = map_chars normal_char (Py.strip request_name)
  /\ (exists pre post,
        request_name = pre +:+ (Py.strip request_name +:+ post)
        /\ Py.all_chars Py.is_space pre = true
        /\ Py.all_chars Py.is_space post = true)
  /\ (forall c r, Py.strip request_name = String c r -> Py.is_space c = false)
  /\ (forall r c, Py.strip request_name = r +:+ String c EmptyString ->
        Py.is_space c = false)
  /\ String.length (clean_name request_name) = String.length (Py.strip request_name)
  /\ (contains " " (clean_name request_name) = false
      /\ contains "/" (clean_name request_name) = false
      /\ contains "\" (clean_name request_name) = false)
  /\ (clean_name "Jane Doe" = "Jane_Doe"
      /\ clean_name "jane doe" = "jane_doe"
      /\ clean_name "Jane  Doe" = "Jane__Doe").
Proof.
  split; [apply replace_is_map|]. split; [apply strip_split|].
  split; [apply strip_head|]. split; [intros r c; apply rstrip_last|].
  split; [apply clean_name_length|]. split; [apply clean_name_safe|].
  repeat split; vm_compute; reflexivity.
Qed.

(** *** From the stored file back to the displayed name *)

Lemma lower_app a b : Py.lower (a +:+ b) = Py.lower a +:+ Py.lower b.
Proof.
  induction a as [|c r IH]; [reflexivity|].
  rewrite append_cons. cbn [Py.lower]. by rewrite append_cons, IH.
Qed.

Lemma endswith_refl s : Py.endswith s s = true.
Proof. destruct s; cbn [Py.endswith]; by rewrite String.eqb_refl. Qed.

Lemma endswith_app a b : Py.endswith (a +:+ b) b = true.
Proof.
  induction a as [|c r IH]; [apply endswith_refl|].
  rewrite append_cons. cbn [Py.endswith]. rewrite IH. apply orb_true_r.
Qed.

Lemma rfind_absent c s : contains c s = false -> Py.rfind c s = None.
Proof.
  induction s as [|a r IH]; [done|]. simpl. intros H.
  apply orb_false_iff in H as [Ha Hr]. by rewrite (IH Hr), Ha.
Qed.

Lemma rfind_app c a b :
  Py.rfind c (a +:+ b)
  = match Py.rfind c b with
    | Some i => Some (String.length a + i)%nat
    | None => Py.rfind c a
    end.
Proof.
  induction a as [|x r IH].
  - rewrite append_empty. by destruct (Py.rfind c b).
  - rewrite append_cons. cbn [Py.rfind String.length]. rewrite IH.
    by destruct (Py.rfind c b).
Qed.

Lemma take_app_length a b : Py.take (String.length a) (a +:+ b) = a.
Proof.
  induction a as [|x r IH]; [by destruct b|].
  rewrite append_cons. cbn [String.length Py.take]. by rewrite IH.
Qed.

Lemma drop_app_length_string a b : Py.drop (String.length a) (a +:+ b) = b.
Proof.
  induction a as [|x r IH]; [by destruct b|].
  rewrite append_cons. cbn [String.length Py.drop]. exact IH.
Qed.

Lemma drop_zero s : Py.drop 0 s = s.
Proof. by destruct s. Qed.

(** For a base name without slash that is not made of dots only, [.jpg] is
    split off again. *)
Lemma splitext_jpg base :
  contains "/" base = false -> only_dots base = false ->
  OsPath.splitext (base +:+ ".jpg") = (base, ".jpg").
Proof.
  intros Hsep Hdots. unfold OsPath.splitext.
  rewrite !rfind_app. cbn [Py.rfind Ascii.eqb Bool.eqb]. cbv iota.
  rewrite (rfind_absent _ _ Hsep), Nat.add_0_r, Nat.sub_0_r, drop_zero.
  rewrite take_app_length, drop_app_length_string.
  unfold only_dots in Hdots. by rewrite Hdots.
Qed.

Lemma only_dots_clean_name request_name :
  only_dots (clean_name request_name) = only_dots (Py.strip request_name).
Proof.
  unfold clean_name, only_dots.
  induction (Py.strip request_name) as [|c r IH]; [done|].
  cbn [Py.replace Py.all_chars]. rewrite IH. f_equal.
  destruct (Ascii.eqb_spec c " ") as [->|H1]; [done|].
  destruct (Ascii.eqb_spec c "/") as [->|H2]; [done|].
  by destruct (Ascii.eqb_spec c "\") as [->|H3].
Qed.

(** Without underscores and separators in the trimmed name, mapping the
    underscores of the normalized name to spaces gives the trimmed name. *)
Lemma display_name_of_clean_name request_name :
  separator_free (Py.strip request_name) = true ->
  Py.replace "_" " " (clean_name request_name) = Py.strip request_name.
Proof.
  unfold clean_name, separator_free.
  induction (Py.strip request_name) as [|c r IH]; [done|].
  cbn [contains Py.replace]. rewrite !negb_orb. intros H.
  apply andb_true_iff in H as [H H3]. apply andb_true_iff in H as [H1 H2].
  apply andb_true_iff in H1 as [Hc1 Hr1]. apply andb_true_iff in H2 as [Hc2 Hr2].
  apply andb_true_iff in H3 as [Hc3 Hr3].
  rewrite IH by (by rewrite Hr1, Hr2, Hr3). f_equal.
  apply negb_true_iff in Hc1, Hc2, Hc3.
  destruct (Ascii.eqb_spec c " ") as [->|Hsp]; [done|].
  by rewrite Hc2, Hc3, Hc1.
Qed.

Lemma face_entries_In filename filenames :
  In filename filenames ->
  Py.endswith_any (Py.lower filename) [".jpg"; ".jpeg"; ".png"] = true ->
  In {| face_name := Py.replace "_" " " (fst (OsPath.splitext filename));
        face_filename := filename |}
     (face_entries filenames).
Proof.
  intros Hin Hext. unfold face_entries. apply in_flat_map.
  exists filename. split; [done|]. rewrite Hext. by left.
Qed.

Lemma list_registered_faces_run s filenames :
  fs s !! "images/registered" = Some filenames ->
  list_registered_faces s
  = (Ret (face_entries filenames, Some (length (face_entries filenames))), s).
Proof.
  intros H. unfold list_registered_faces, catch, bind, os_path_exists, os_listdir, ret.
  rewrite H. simpl. by rewrite H.
Qed.

(** C10, as stated, fails. The name ["..."] is one word without underscore or
    separator; its file [....jpg] has no extension for [os.path.splitext], so
    the listing shows the name [....jpg]. And the route as served stores
    nothing: after the request to register ["Jane Doe"], which the wrapper
    turns down, the listing is as empty as before. *)
Lemma dotted_name_is_listed_with_extension :
  single_spaced_words (Py.strip "...") = true
  /\ separator_free (Py.strip "...") = true
  /\ registered_file "..." = "....jpg"
  /\ fst (list_registered_faces (disk [registered_file "..."]))
     = Ret ([ {| face_name := "....jpg"; face_filename := "....jpg" |} ], Some 1%nat)
  /\ single_spaced_words (Py.strip "Jane Doe") = true
  /\ separator_free (Py.strip "Jane Doe") = true
  /\ fst (list_registered_faces (snd (register_face studio "Jane Doe" (disk []))))
     = Ret ([], Some 0%nat).
Proof. repeat split; vm_compute; reflexivity. Qed.

(** C10, amended. For every name whose trimmed form has no underscore, slash
    or backslash and is not made of dots only: when the gallery directory
    holds the file named by the normalized name followed by [.jpg], the
    listing of the registered faces has an entry with that file name whose
    displayed name is the trimmed name. (Single spacing of the words is not
    needed.) *)
Theorem enrollment_listing_round_trip s request_name filenames :
  fs s !! "images/registered" = Some filenames ->
  In (registered_file request_name) filenames ->
  separator_free (Py.strip request_name) = true ->
  only_dots (Py.strip request_name) = false ->
  exists faces,
    fst (list_registered_faces s) = Ret (faces, Some (length faces))
    /\ In {| face_name := Py.strip request_name;
             face_filename := clean_name request_name +:+ ".jpg" |} faces.
Proof.
  intros Hfs Hin Hfree Hdots.
  rewrite (list_registered_faces_run _ _ Hfs). eexists. split; [reflexivity|].
  unfold registered_file in Hin.
  set (base := clean_name request_name) in *.
  assert (Hsplit : OsPath.splitext (base +:+ ".jpg") = (base, ".jpg")).
  { apply splitext_jpg; [apply clean_name_safe|].
    unfold base. by rewrite only_dots_clean_name. }
  assert (Hext : Py.endswith_any (Py.lower (base +:+ ".jpg")) [".jpg"; ".jpeg"; ".png"]
                 = true).
  { rewrite lower_app. cbn [Py.endswith_any existsb].
    change (Py.lower ".jpg") with ".jpg". by rewrite endswith_app. }
  pose proof (face_entries_In _ _ Hin Hext) as Hentry.
  rewrite Hsplit in Hentry. cbn [fst] in Hentry. unfold base in Hentry at 1.
  rewrite display_name_of_clean_name in Hentry by done.
  exact Hentry.
Qed.

Lemma enrollment_listing_round_trip_witness :
  exists faces,
    fst (list_registered_faces (disk ["alice.jpg"; "Jane_Doe.jpg"]))
    = Ret (faces, Some (length faces))
    /\ In {| face_name := "Jane Doe"; face_filename := "Jane_Doe.jpg" |} faces.
Proof.
  apply (enrollment_listing_round_trip (disk ["alice.jpg"; "Jane_Doe.jpg"]) " Jane Doe "
           ["alice.jpg"; "Jane_Doe.jpg"]).
  - reflexivity.
  - right. left. reflexivity.
  - reflexivity.
  - reflexivity.
Defined.

(** * Further properties of the code *)

(** ** The engine as a search *)


(** X1. The verdict of [verify_face] is that of a search: the first entry of
    the listing that passes the extension filter and for which the oracle
    reports [verified] with a distance below the threshold, with that
    distance, or no match when there is none; entries whose comparison raises
    count as not accepted. *)
Theorem verify_face_finds_first_accepted K W input dir model entries s :
  fs s !! dir = Some entries ->
  fst (verify_face K W input dir model s)
  = Ret (verdict_of K W input dir model (first_accepted K W input dir model entries)).
Proof.
  intros Hfs. rewrite (verify_face_listed _ _ _ _ _ _ _ Hfs). apply loop_is_find.
Qed.

Lemma verify_face_finds_first_accepted_witness :
  fst (verify_face spec_constants one_corrupt "capture.jpg" "images/registered" "Facenet"
         (disk ["README.md"; "alice.jpg"; "bob.jpg"]))
  = Ret {| verified := true; matched_with := Some "bob.jpg";
           score := Some 0.1%Q; error := None |}.
Proof.
  apply (verify_face_finds_first_accepted spec_constants one_corrupt "capture.jpg"
           "images/registered" "Facenet" ["README.md"; "alice.jpg"; "bob.jpg"]).
  reflexivity.
Defined.

(** X2. The oracle is asked about the identities of the listing in listing
    order, each at most once, starting with the first and without gaps;
    entries that fail the extension filter are never passed to it; when the
    verdict is no match it has been asked about every identity. *)
Theorem oracle_is_asked_in_listing_order K W input dir model entries s :
  fs s !! dir = Some entries ->
  exists k,
    oracle_calls (events_of (verify_face K W input dir model) s)
    = List.map (compare_event K input dir model)
        (List.firstn k (List.filter (is_identity K) entries))
    /\ (fst (verify_face K W input dir model s) = Ret no_match ->
        oracle_calls (events_of (verify_face K W input dir model) s)
        = List.map (compare_event K input dir model)
            (List.filter (is_identity K) entries)).
Proof.
  intros Hfs.
  destruct (loop_trace K W input dir model entries)
    as (pre & post & d & evs & -> & Hpre & Hl & Hshape).
  assert (Hrun : verify_face K W input dir model s = (Ret d, add_events s evs)).
  { rewrite (verify_face_listed _ _ _ _ _ _ _ Hfs). apply Hl. }
  rewrite (events_of_add _ _ _ _ Hrun), Hrun. cbn [fst].
  destruct Hshape as [(-> & -> & ->)|(p & rest & r & -> & Hid & Hr & Hacc & -> & ->)].
  - rewrite app_nil_r.
    exists (length (List.filter (is_identity K) pre)).
    rewrite List.firstn_all, oracle_calls_passed. done.
  - exists (S (length (List.filter (is_identity K) pre))).
    rewrite oracle_calls_app, oracle_calls_passed, List.filter_app.
    cbn [List.filter]. rewrite Hid.
    split; [|discriminate].
    replace (S (length (List.filter (is_identity K) pre)))
      with (length (List.filter (is_identity K) pre ++ [p])).
    2:{ rewrite length_app. simpl. lia. }
    change (p :: List.filter (is_identity K) rest)
      with ([p] ++ List.filter (is_identity K) rest).
    rewrite app_assoc, List.firstn_app, List.firstn_all, Nat.sub_diag.
    cbn [List.firstn]. rewrite app_nil_r, List.map_app. done.
Qed.

Lemma oracle_is_asked_in_listing_order_witness :
  exists k,
    oracle_calls (events_of
      (verify_face spec_constants one_corrupt "capture.jpg" "images/registered" "Facenet")
      (disk ["README.md"; "alice.jpg"; "bob.jpg"; "carol.png"]))
    = List.map (compare_event spec_constants "capture.jpg" "images/registered" "Facenet")
        (List.firstn k ["alice.jpg"; "bob.jpg"; "carol.png"]).
Proof.
  destruct (oracle_is_asked_in_listing_order spec_constants one_corrupt "capture.jpg"
              "images/registered" "Facenet"
              ["README.md"; "alice.jpg"; "bob.jpg"; "carol.png"]
              (disk ["README.md"; "alice.jpg"; "bob.jpg"; "carol.png"]))
    as (k & Hk & _); [reflexivity|].
  exists k. exact Hk.
Defined.

(** X3. [verify_face] only reads: whatever the directory and the oracle, it
    leaves the file system as it is and appends no audit record; over a
    directory that does not exist it raises [FileNotFoundError] before any
    call of the oracle, and over one that exists it returns a dictionary. *)
Theorem verify_face_only_reads K W input dir model s :
  fs (snd (verify_face K W input dir model s)) = fs s
  /\ audit_records (events_of (verify_face K W input dir model) s) = []
  /\ (fs s !! dir = None ->
      verify_face K W input dir model s = (Raise (FileNotFoundError dir), s))
  /\ (is_Some (fs s !! dir) ->
      exists d, fst (verify_face K W input dir model s) = Ret d).
Proof.
  destruct (fs s !! dir) as [entries|] eqn:Hfs.
  - destruct (loop_returns K W input dir model entries) as (d & evs & Hl & _ & Hev).
    assert (Hrun : verify_face K W input dir model s = (Ret d, add_events s evs)).
    { rewrite (verify_face_listed _ _ _ _ _ _ _ Hfs). apply Hl. }
    rewrite (events_of_add _ _ _ _ Hrun), Hrun.
    split; [done|]. split; [done|]. split; [discriminate|].
    intros _. by exists d.
  - assert (Hrun : verify_face K W input dir model s = (Raise (FileNotFoundError dir), s)).
    { unfold verify_face, bind, os_listdir. by rewrite Hfs. }
    split; [by rewrite Hrun|]. split; [|split; [done|by intros [? ?]]].
    unfold events_of. rewrite Hrun. cbn [snd]. by rewrite drop_all.
Qed.

Lemma verify_face_only_reads_witness :
  verify_face spec_constants two_faces "capture.jpg" "images/registered" "Facenet" no_disk
  = (Raise (FileNotFoundError "images/registered"), no_disk).
Proof.
  apply (verify_face_only_reads spec_constants two_faces "capture.jpg"
           "images/registered" "Facenet" no_disk).
  reflexivity.
Defined.

(** ** The handlers of the two verification routes *)


(** X4. Verification and listing never change the gallery: after any run of
    [/api/verify], of [/verify-face] or of [/api/registered] the file system
    is the one the request found, and the trace of the two verification
    routes has only grown. *)
Theorem verification_leaves_the_gallery_alone K W ct s :
  (fs (snd (verify K W s)) = fs s
   /\ exists evs, trace (snd (verify K W s)) = trace s ++ evs)
  /\ (fs (snd (verify_face_from_photo K W ct s)) = fs s
      /\ exists evs, trace (snd (verify_face_from_photo K W ct s)) = trace s ++ evs)
  /\ snd (list_registered_faces s) = s.
Proof.
  split; [|split].
  - destruct (verify_adds_events K W s) as (evs & ->). split; [done|by exists evs].
  - destruct (photo_adds_events K W ct s) as (evs & ->). split; [done|by exists evs].
  - unfold list_registered_faces, catch, bind, os_path_exists, os_listdir, ret.
    destruct (fs s !! "images/registered") as [l|] eqn:E; simpl; by rewrite ?E.
Qed.

(** X5. The temporary file of an upload is removed on every path: once
    [/verify-face] has saved the upload under [temp], whatever the spoof gate,
    the oracle and the log do (answer or raise), the events of the request are
    the saving, the spoof check, then events among which no file is removed,
    and last the removal of [temp]. *)
Theorem upload_is_always_removed K W ct s temp :
  Py.startswith ct "image/" = true ->
  gallery_check_passes K s ->
  w_upload W = Ret temp ->
  exists mid,
    events_of (verify_face_from_photo K W (Some ct)) s
    = [EvSaveUpload; EvSpoofCheck temp] ++ mid ++ [EvUnlink temp]
    /\ List.filter is_unlink mid = [].
Proof.
  intros Hct Hg Hu.
  destruct (photo_after_upload K W ct s temp Hct Hg Hu) as (mid & Hs & Hun).
  exists mid. split; [|done]. by apply events_of_snd.
Qed.

Lemma upload_is_always_removed_witness :
  exists mid,
    events_of (verify_face_from_photo spec_constants log_down (Some "image/jpeg"))
      (disk ["alice.jpg"])
    = [EvSaveUpload; EvSpoofCheck "/tmp/upload.jpg"] ++ mid ++ [EvUnlink "/tmp/upload.jpg"]
    /\ List.filter is_unlink mid = [].
Proof.
  apply (upload_is_always_removed spec_constants log_down "image/jpeg" (disk ["alice.jpg"])
           "/tmp/upload.jpg").
  - reflexivity.
  - vm_compute; reflexivity.
  - reflexivity.
Defined.

(** X6. [/verify-face] checks the content type before anything else: an
    upload whose content type does not start with [image/] is answered with
    status 400 whatever the state of the gallery, and one without content
    type with status 500; in both cases the upload is not read and no
    collaborator is called. *)
Theorem content_type_is_checked_first K W s :
  (forall ct, Py.startswith ct "image/" = false ->
     verify_face_from_photo K W (Some ct) s
     = (Raise (HTTPException 400 "File must be an image"), s))
  /\ verify_face_from_photo K W None s
     = (Raise (HTTPException 500 "Face verification failed"), s).
Proof.
  split.
  - intros ct Hct. by rewrite verify_face_from_photo_run, Hct.
  - by rewrite verify_face_from_photo_run.
Qed.

Lemma content_type_is_checked_first_witness :
  verify_face_from_photo spec_constants two_faces (Some "text/plain") no_disk
  = (Raise (HTTPException 400 "File must be an image"), no_disk).
Proof.
  apply (proj1 (content_type_is_checked_first spec_constants two_faces no_disk)).
  reflexivity.
Defined.

(** X7. When the scan runs but [log_verification] raises, the verdict is lost
    and no audit record is appended, on both routes. [/api/verify] answers by
    the class of the exception: for a plain exception with status 200 and the
    internal-error dictionary ([verified = False], score [0.0]) even if the
    engine found a match, for [FileNotFoundError] with status 500, and an
    [HTTPException] is passed on. [/verify-face] answers with status 500,
    unless the exception is an [HTTPException], which is passed on. *)
Theorem log_failure_hides_the_verdict K W s e :
  (forall identity is_verified distance,
     w_log W identity is_verified distance = Raise e) ->
  (forall path,
     gallery_check_passes K s ->
     w_capture W = Ret path -> w_spoof W path = Ret true ->
     fst (verify K W s)
     = match e with
       | HTTPException c detail => Raise (HTTPException c detail)
       | FileNotFoundError _ =>
           Raise (HTTPException 500 "Required files or directories not found")
       | Exception _ => Ret internal_error
       end
     /\ audit_records (events_of (verify K W) s) = [])
  /\ (forall ct temp,
        Py.startswith ct "image/" = true ->
        gallery_check_passes K s ->
        w_upload W = Ret temp -> w_spoof W temp = Ret true ->
        fst (verify_face_from_photo K W (Some ct) s)
        = match e with
          | HTTPException c detail => Raise (HTTPException c detail)
          | _ => Raise (HTTPException 500 "Face verification failed")
          end
        /\ audit_records (events_of (verify_face_from_photo K W (Some ct)) s) = []).
Proof.
  intros Hlog. split.
  - intros path Hg Hc Hs.
    destruct (proj1 (gallery_check_passes_listing K s) Hg) as (x & l & Hfs).
    destruct (verify_search_run K W s (x :: l) path Hfs Hg Hc Hs) as (evs & Hev & Hrun).
    rewrite Hlog in Hrun. split; [rewrite Hrun; by destruct e|].
    apply (f_equal snd) in Hrun. rewrite verify_except_state in Hrun.
    rewrite (events_of_snd _ _ _ Hrun), audit_records_app, Hev. done.
  - intros ct temp Hct Hg Hu Hs.
    destruct (proj1 (gallery_check_passes_listing K s) Hg) as (x & l & Hfs).
    destruct (photo_search_run K W ct s (x :: l) temp Hct Hfs Hg Hu Hs)
      as (evs & Hev & Hrun).
    rewrite Hlog in Hrun. split; [rewrite Hrun; by destruct e|].
    apply (f_equal snd) in Hrun. rewrite photo_except_state in Hrun.
    rewrite (events_of_snd _ _ _ Hrun), !audit_records_app, Hev. done.
Qed.

Lemma log_failure_hides_the_verdict_witness :
  fst (verify_face spec_constants log_down "images/captured/capture.jpg"
         "images/registered" "Facenet" (disk ["alice.jpg"]))
  = Ret {| verified := true; matched_with := Some "alice.jpg";
           score := Some 0.3%Q; error := None |}
  /\ fst (verify spec_constants log_down (disk ["alice.jpg"])) = Ret internal_error
  /\ audit_records (events_of (verify spec_constants log_down) (disk ["alice.jpg"])) = [].
Proof.
  split; [vm_compute; reflexivity|].
  apply (proj1 (log_failure_hides_the_verdict spec_constants log_down
                  (disk ["alice.jpg"]) (Exception "disk full") (fun _ _ _ => eq_refl))
           "images/captured/capture.jpg").
  - vm_compute; reflexivity.
  - reflexivity.
  - reflexivity.
Defined.

(** X8. Past the gallery check [/api/verify] turns every plain exception into
    an answer with status 200: when the camera, the spoof gate and the log
    raise nothing but plain exceptions, the handler returns a dictionary; it
    is the internal-error dictionary as soon as the camera raises. *)
Theorem webcam_route_answers_200_on_errors K W s :
  gallery_check_passes K s ->
  plain_errors W ->
  (exists d, fst (verify K W s) = Ret d
             /\ http_status (fst (verify K W s)) = 200%Z)
  /\ (forall e, w_capture W = Raise e ->
        verify K W s = (Ret internal_error, add_events s [EvCapture])).
Proof.
  intros Hg (Hcap & Hsp & Hlog).
  apply gallery_check_passes_listing in Hg as (x & l & Hfs).
  rewrite verify_run, Hfs.
  destruct (w_capture W) as [path|e] eqn:Hc.
  - split; [|discriminate].
    destruct (w_spoof W path) as [[|]|e] eqn:Hs.
    + destruct (loop_returns K W path (REGISTERED_FACES_DIR K) (FACE_MODEL K) (x :: l))
        as (d & evs & Hl & _ & _).
      rewrite Hl.
      destruct (w_log W (matched_with d) (verified d) (score d)) as [u|e] eqn:Hw.
      * by exists d.
      * destruct (Hlog _ _ _ _ Hw) as (m & ->). by exists internal_error.
    + by exists spoof_rejected.
    + destruct (Hsp _ _ Hs) as (m & ->). by exists internal_error.
  - destruct (Hcap _ eq_refl) as (m & ->). split; [by exists internal_error|].
    by intros e' [= <-].
Qed.

Lemma webcam_route_answers_200_on_errors_witness :
  verify spec_constants no_camera (disk ["alice.jpg"])
  = (Ret internal_error, add_events (disk ["alice.jpg"]) [EvCapture]).
Proof.
  apply (proj2 (webcam_route_answers_200_on_errors spec_constants no_camera
                  (disk ["alice.jpg"])
                  ltac:(vm_compute; reflexivity)
                  ltac:(repeat split; intros; try discriminate;
                        match goal with H : _ = Raise _ |- _ =>
                          injection H as <- end; by eexists))
           (Exception "Webcam not accessible")).
  reflexivity.
Defined.

(** X9. When the scan runs and the log call returns, the handlers answer with
    the result of the search. [/api/verify], given a capture that passes the
    spoof gate, answers with the dictionary of the first accepted identity of
    the listing, or with the no-match dictionary. [/verify-face], given an
    image upload that passes the spoof gate, answers with the corresponding
    match flag and confidence. *)
Theorem routes_answer_with_the_search K W s entries :
  log_returns W ->
  fs s !! REGISTERED_FACES_DIR K = Some entries ->
  gallery_check_passes K s ->
  (forall path,
     w_capture W = Ret path -> w_spoof W path = Ret true ->
     fst (verify K W s)
     = Ret (verdict_of K W path (REGISTERED_FACES_DIR K) (FACE_MODEL K)
              (first_accepted K W path (REGISTERED_FACES_DIR K) (FACE_MODEL K)
                 entries)))
  /\ (forall ct temp,
        Py.startswith ct "image/" = true ->
        w_upload W = Ret temp -> w_spoof W temp = Ret true ->
        fst (verify_face_from_photo K W (Some ct) s)
        = Ret (client_answer
                 (verdict_of K W temp (REGISTERED_FACES_DIR K) (FACE_MODEL K)
                    (first_accepted K W temp (REGISTERED_FACES_DIR K) (FACE_MODEL K)
                       entries)))).
Proof.
  intros Hlog Hfs Hg. split.
  - intros path Hc Hs.
    destruct (verify_search_run K W s entries path Hfs Hg Hc Hs) as (evs & _ & Hrun).
    rewrite Hlog in Hrun. by rewrite Hrun.
  - intros ct temp Hct Hu Ht.
    destruct (photo_search_run K W ct s entries temp Hct Hfs Hg Hu Ht)
      as (evs & _ & Hrun).
    rewrite Hlog in Hrun. by rewrite Hrun.
Qed.

Lemma routes_answer_with_the_search_witness :
  fst (verify spec_constants one_corrupt (disk ["README.md"; "alice.jpg"; "bob.jpg"]))
  = Ret {| verified := true; matched_with := Some "bob.jpg";
           score := Some 0.1%Q; error := None |}
  /\ fst (verify_face_from_photo spec_constants one_corrupt (Some "image/png")
            (disk ["README.md"; "alice.jpg"; "bob.jpg"]))
     = Ret {| c_match := true; c_confidence := (900 # 10)%Q |}.
Proof.
  destruct (routes_answer_with_the_search spec_constants one_corrupt
              (disk ["README.md"; "alice.jpg"; "bob.jpg"])
              ["README.md"; "alice.jpg"; "bob.jpg"]) as [H1 H2].
  - apply table_world_log_returns.
  - reflexivity.
  - vm_compute; reflexivity.
  - split.
    + apply (H1 "images/captured/capture.jpg"); reflexivity.
    + apply (H2 "image/png" "/tmp/upload.jpg"); reflexivity.
Defined.

(** ** Enrollment *)



(** ** The listing *)

Lemma face_entries_filenames filenames :
  List.map face_filename (face_entries filenames) = List.filter is_listed filenames.
Proof.
  induction filenames as [|f l IH]; [done|].
  unfold face_entries in *. cbn [flat_map List.filter]. fold (is_listed f).
  rewrite List.map_app, IH. by destruct (is_listed f).
Qed.

Lemma face_entries_names filenames :
  Forall (fun face => contains "_" (face_name face) = false) (face_entries filenames).
Proof.
  induction filenames as [|f l IH]; [by constructor|].
  unfold face_entries in *. cbn [flat_map]. apply Forall_app. split; [|done].
  destruct (Py.endswith_any (Py.lower f) [".jpg"; ".jpeg"; ".png"]); [|by constructor].
  constructor; [|by constructor]. apply contains_replace_old. discriminate.
Qed.

(** X14. [/api/registered] lists exactly the entries of the gallery directory
    whose lower-cased name ends with [.jpg], [.jpeg] or [.png], in directory
    order, each once; [count] is their number; no displayed name contains an
    underscore. When the directory does not exist the list is empty and the
    answer has no [count]. *)
Theorem listing_shows_the_image_entries s :
  (forall filenames, fs s !! "images/registered" = Some filenames ->
     exists faces,
       fst (list_registered_faces s) = Ret (faces, Some (length faces))
       /\ List.map face_filename faces = List.filter is_listed filenames
       /\ length faces = length (List.filter is_listed filenames)
       /\ Forall (fun face => contains "_" (face_name face) = false) faces)
  /\ (fs s !! "images/registered" = None ->
      fst (list_registered_faces s) = Ret ([], None)).
Proof.
  split.
  - intros filenames Hfs. rewrite (list_registered_faces_run _ _ Hfs).
    exists (face_entries filenames). split; [done|].
    split; [apply face_entries_filenames|].
    split; [by rewrite <- face_entries_filenames, length_map|apply face_entries_names].
  - intros Hfs. unfold list_registered_faces, catch, bind, os_path_exists, ret.
    by rewrite Hfs.
Qed.

Lemma listing_shows_the_image_entries_witness :
  exists faces,
    fst (list_registered_faces (disk [".gitkeep"; "Jane_Doe.JPG"; "notes.txt"; "bob.png"]))
    = Ret (faces, Some (length faces))
    /\ List.map face_filename faces = ["Jane_Doe.JPG"; "bob.png"].
Proof.
  destruct (proj1 (listing_shows_the_image_entries
                     (disk [".gitkeep"; "Jane_Doe.JPG"; "notes.txt"; "bob.png"]))
              [".gitkeep"; "Jane_Doe.JPG"; "notes.txt"; "bob.png"] eq_refl)
    as (faces & Hrun & Hnames & _).
  exists faces. split; [exact Hrun|exact Hnames].
Defined.

(** X15. The listing and the engine agree on who is enrolled: when the
    supported formats are [.jpg], [.jpeg], [.png] and the gallery directory is
    [images/registered], [verify_face] compares the capture with the files
    that [/api/registered] lists and with no other entry, in the order of the
    listing and from its start; when it answers no match it has compared the
    capture with every listed file; and an identity it matches is a listed
    file. *)
Theorem listing_agrees_with_the_engine K W input model s entries faces count :
  SUPPORTED_IMAGE_FORMATS K = [".jpg"; ".jpeg"; ".png"] ->
  REGISTERED_FACES_DIR K = "images/registered" ->
  fs s !! "images/registered" = Some entries ->
  fst (list_registered_faces s) = Ret (faces, count) ->
  (exists k,
     oracle_calls (events_of (verify_face K W input (REGISTERED_FACES_DIR K) model) s)
     = List.map (compare_event K input (REGISTERED_FACES_DIR K) model)
         (List.firstn k (List.map face_filename faces)))
  /\ (fst (verify_face K W input (REGISTERED_FACES_DIR K) model s) = Ret no_match ->
      oracle_calls (events_of (verify_face K W input (REGISTERED_FACES_DIR K) model) s)
      = List.map (compare_event K input (REGISTERED_FACES_DIR K) model)
          (List.map face_filename faces))
  /\ (forall d person,
        fst (verify_face K W input (REGISTERED_FACES_DIR K) model s) = Ret d ->
        matched_with d = Some person ->
        In person (List.map face_filename faces)).
Proof.
  intros Hfmt Hdir Hfs Hrun.
  assert (Hfaces : List.map face_filename faces = List.filter (is_identity K) entries).
  { rewrite (list_registered_faces_run _ _ Hfs) in Hrun. cbn [fst] in Hrun.
    injection Hrun as <- _. rewrite face_entries_filenames.
    apply List.filter_ext. intros f. unfold is_listed, is_identity. by rewrite Hfmt. }
  rewrite Hfaces, Hdir. clear Hfaces Hrun.
  split; [|split].
  - destruct (loop_trace K W input "images/registered" model entries)
      as (pre & post & d & evs & -> & Hpre & Hl & Hshape).
    assert (Hv : verify_face K W input "images/registered" model s
                 = (Ret d, add_events s evs)).
    { rewrite (verify_face_listed _ _ _ _ _ _ _ Hfs). apply Hl. }
    rewrite (events_of_add _ _ _ _ Hv).
    destruct Hshape as [(-> & -> & ->)|(p & rest & r & -> & Hid & Hr & Hacc & -> & ->)].
    + rewrite app_nil_r. exists (length (List.filter (is_identity K) pre)).
      by rewrite List.firstn_all, oracle_calls_passed.
    + exists (length (List.filter (is_identity K) pre ++ [p])).
      rewrite oracle_calls_app, oracle_calls_passed, List.filter_app.
      cbn [List.filter]. rewrite Hid.
      change (p :: List.filter (is_identity K) rest)
        with ([p] ++ List.filter (is_identity K) rest).
      rewrite app_assoc, List.firstn_app, List.firstn_all, Nat.sub_diag.
      cbn [List.firstn]. by rewrite app_nil_r, List.map_app.
  - destruct (loop_trace K W input "images/registered" model entries)
      as (pre & post & d & evs & -> & Hpre & Hl & Hshape).
    assert (Hv : verify_face K W input "images/registered" model s
                 = (Ret d, add_events s evs)).
    { rewrite (verify_face_listed _ _ _ _ _ _ _ Hfs). apply Hl. }
    rewrite (events_of_add _ _ _ _ Hv), Hv. cbn [fst].
    destruct Hshape as [(-> & -> & ->)|(p & rest & r & -> & Hid & Hr & Hacc & -> & ->)];
      [|discriminate].
    intros _. by rewrite app_nil_r, oracle_calls_passed.
  - intros d person Hd Hm.
    apply verify_face_returns in Hd as (entries' & Hfs' & Hd).
    assert (entries' = entries) as -> by congruence.
    destruct Hd as [->|(q & r & Hin & Hid & _ & _ & _ & ->)]; [discriminate|].
    injection Hm as <-. apply List.filter_In. by split.
Qed.

Lemma listing_agrees_with_the_engine_witness :
  oracle_calls (events_of
    (verify_face spec_constants (table_world true []) "capture.jpg"
       "images/registered" "Facenet")
    (disk [".gitkeep"; "alice.jpg"; "bob.PNG"]))
  = List.map (compare_event spec_constants "capture.jpg" "images/registered" "Facenet")
      (List.map face_filename
         [ {| face_name := "alice"; face_filename := "alice.jpg" |};
           {| face_name := "bob"; face_filename := "bob.PNG" |} ]).
Proof.
  apply (proj1 (proj2 (listing_agrees_with_the_engine spec_constants
           (table_world true []) "capture.jpg" "Facenet"
           (disk [".gitkeep"; "alice.jpg"; "bob.PNG"])
           [".gitkeep"; "alice.jpg"; "bob.PNG"] _ (Some 2%nat)
           eq_refl eq_refl eq_refl ltac:(vm_compute; reflexivity)))).
  vm_compute; reflexivity.
Defined.

(** ** The confidence as a function of the distance *)

Lemma confidence_of_range d : (0 <= confidence_of d <= 100)%Q.
Proof.
  rewrite confidence_of_clamp. unfold clamp.
  set (z := b64 (b64 (1 - b64 d) * 100)).
  destruct (Qltb z 0) eqn:H1; [lra|].
  destruct (Qltb 100 z) eqn:H2; [lra|].
  qltb. lra.
Qed.

Lemma confidence_of_antitone d1 d2 :
  (d1 <= d2)%Q -> (confidence_of d2 <= confidence_of d1)%Q.
Proof.
  intros H. rewrite !confidence_of_clamp.
  assert (Hz : (b64 (b64 (1 - b64 d2) * 100) <= b64 (b64 (1 - b64 d1) * 100))%Q).
  { apply b64_monotone.
    assert (H1 : (b64 (1 - b64 d2) <= b64 (1 - b64 d1))%Q).
    { apply b64_monotone. pose proof (b64_monotone d1 d2 H). lra. }
    lra. }
  revert Hz. generalize (b64 (b64 (1 - b64 d1) * 100)) (b64 (b64 (1 - b64 d2) * 100)).
  intros z1 z2 Hz. unfold clamp.
  destruct (Qltb z1 0) eqn:H1; destruct (Qltb z2 0) eqn:H2;
    destruct (Qltb 100 z1) eqn:H3; destruct (Qltb 100 z2) eqn:H4; qltb; lra.
Qed.

Lemma tenths_le (n m : Z) : (n <= m)%Z -> (n # 10 <= m # 10)%Q.
Proof. intros H. unfold Qle. simpl. lia. Qed.

Lemma floor_lt_of_Qlt (f c : Z) : (inject_Z f < inject_Z c)%Q -> (f < c)%Z.
Proof. intros H. by rewrite Zlt_Qlt. Qed.

Lemma round1_range x : (0 <= x <= 100)%Q -> (0 <= round1 x <= 100)%Q.
Proof.
  intros [Hlo Hhi]. unfold round1.
  set (y := (x * 10)%Q). set (f := Qfloor y).
  assert (Hfy : (inject_Z f <= y)%Q) by apply Qfloor_le.
  assert (Hf0 : (0 <= f)%Z).
  { assert (H0 : (Qfloor 0 <= Qfloor y)%Z) by (apply Qfloor_resp_le; unfold y; lra).
    exact H0. }
  assert (Hy : (y <= 1000)%Q) by (unfold y; lra).
  assert (Hn : forall n : Z, (0 <= n <= 1000)%Z -> (0 <= n # 10 <= 100)%Q).
  { intros n Hn. unfold Qle. simpl. lia. }
  assert (Hf1 : (f <= 1000)%Z).
  { rewrite Zle_Qle. change (inject_Z 1000) with 1000%Q. lra. }
  destruct (Qltb (y - inject_Z f) (1 # 2)) eqn:H1; [apply Hn; lia|].
  qltb.
  assert (Hf2 : (f < 1000)%Z).
  { apply floor_lt_of_Qlt. change (inject_Z 1000) with 1000%Q. lra. }
  destruct (Qltb (1 # 2) (y - inject_Z f)); [apply Hn; lia|].
  destruct (Z.even f); apply Hn; lia.
Qed.

Lemma round1_monotone x y : (x <= y)%Q -> (round1 x <= round1 y)%Q.
Proof.
  intros H. unfold round1.
  set (a := (x * 10)%Q). set (b := (y * 10)%Q).
  set (fa := Qfloor a). set (fb := Qfloor b).
  assert (Hab : (a <= b)%Q) by (unfold a, b; lra).
  assert (Hf : (fa <= fb)%Z) by (by apply Qfloor_resp_le).
  apply tenths_le.
  destruct (Z.eq_dec fa fb) as [Heq|Hne].
  - rewrite <- Heq.
    destruct (Qltb (a - inject_Z fa) (1 # 2)) eqn:A1;
      destruct (Qltb (1 # 2) (a - inject_Z fa)) eqn:A2;
      destruct (Qltb (b - inject_Z fa) (1 # 2)) eqn:B1;
      destruct (Qltb (1 # 2) (b - inject_Z fa)) eqn:B2;
      destruct (Z.even fa); qltb; try lia; exfalso; lra.
  - destruct (Qltb (a - inject_Z fa) (1 # 2));
      destruct (Qltb (1 # 2) (a - inject_Z fa));
      destruct (Qltb (b - inject_Z fb) (1 # 2));
      destruct (Qltb (1 # 2) (b - inject_Z fb));
      destruct (Z.even fa); destruct (Z.even fb); lia.
Qed.

(** X16. The confidence that [/verify-face] returns is always between 0 and
    100: whatever distance the oracle reports (negative, above 1), every
    dictionary the handler returns has [0 <= confidence <= 100]. *)
Theorem confidence_stays_in_range K W ct s c :
  fst (verify_face_from_photo K W ct s) = Ret c ->
  (0 <= c_confidence c <= 100)%Q.
Proof.
  intros H. apply verify_face_from_photo_returns in H.
  destruct H as [->|(temp & entries & person & r & _ & _ & _ & _ & _ & _ & ->)].
  - simpl. lra.
  - cbn [c_confidence]. apply round1_range, confidence_of_range.
Qed.

Lemma confidence_stays_in_range_witness :
  (0 <= c_confidence {| c_match := true; c_confidence := (877 # 10)%Q |} <= 100)%Q.
Proof.
  apply (confidence_stays_in_range spec_constants
           (table_world true [("images/registered/alice.jpg", answer true 0.1234)])
           (Some "image/jpeg") (disk ["alice.jpg"])).
  vm_compute; reflexivity.
Defined.

(** X17. A closer face never gets a lower confidence: the value the handler
    computes from a distance, the clamped percentage rounded to one decimal,
    does not increase when the distance increases. *)
Theorem closer_face_scores_no_lower d1 d2 :
  (d1 <= d2)%Q ->
  (round1 (confidence_of d2) <= round1 (confidence_of d1))%Q.
Proof. intros H. by apply round1_monotone, confidence_of_antitone. Qed.

Lemma closer_face_scores_no_lower_witness :
  (round1 (confidence_of 0.3) <= round1 (confidence_of 0.25))%Q.
Proof. apply (closer_face_scores_no_lower 0.25 0.3). unfold Qle. simpl. lia. Defined.

(** ** The normalization is idempotent *)

(** X18. Normalizing a name twice is the same as normalizing it once: a
    normalized name has no white space at its ends and no space, slash or
    backslash left, so [clean_name] leaves it as it is. *)
Theorem clean_name_idempotent request_name :
  clean_name (clean_name request_name) = clean_name request_name.
Proof.
  destruct (clean_name_safe request_name) as (H1 & H2 & H3).
  unfold clean_name at 1. rewrite clean_name_is_trimmed.
  by rewrite (replace_absent _ _ _ H1), (replace_absent _ _ _ H2),
    (replace_absent _ _ _ H3).
Qed.

(** ** The test script *)

Section ScriptFacts.

Variable K : Constants.
Variable W : World.

Local Abbreviation captured := "images/captured/E001.jpg".
Local Abbreviation dir := "images/registered".

(** The answer of the spoof check as the script takes it: an exception counts
    as a failed check. *)
Lemma test_e001_run s l l2 :
  fs s !! dir = Some l -> "E001.jpg" ∈ l ->
  fs s !! "images/captured" = Some l2 -> "E001.jpg" ∈ l2 ->
  exists d evs,
    verify_face K W captured dir (FACE_MODEL K) s = (Ret d, add_events s evs)
    /\ test_e001_verification K W s
       = (Ret (match w_spoof W captured with Ret b => b | Raise _ => false end
               && verified d),
          add_events s ([EvSpoofCheck captured] ++ evs)).
Proof.
  intros Hl Hin Hl2 Hin2.
  destruct (loop_returns K W captured dir (FACE_MODEL K) l) as (d & evs & Hloop & Hd & _).
  exists d, evs. split.
  { rewrite (verify_face_listed _ _ _ _ _ _ _ Hl). apply Hloop. }
  unfold test_e001_verification. unfold bind at 1. unfold os_path_exists_in at 1.
  rewrite Hl, bool_decide_eq_true_2 by done. cbn [negb].
  unfold bind at 1. unfold os_path_exists_in at 1.
  rewrite Hl2, bool_decide_eq_true_2 by done. cbn [negb].
  assert (Hv : forall b,
    (verification_result <-
       catch
         (result <- verify_face K W captured dir (FACE_MODEL K) ;;
          if verified result
          then match score result with
               | Some _ => ret result
               | None => raise (Exception "unsupported operand type(s) for -")
               end
          else ret result)
         (fun _ => ret no_match) ;;
     ret (b && verified verification_result)) (add_events s [EvSpoofCheck captured])
    = (Ret (b && verified d), add_events s ([EvSpoofCheck captured] ++ evs))).
  { intros b. unfold bind at 1, catch, bind at 1.
    rewrite (verify_face_listed K W captured dir (FACE_MODEL K) l) by done.
    rewrite Hloop, add_events_app.
    destruct Hd as [->|(person & r & _ & _ & _ & _ & _ & ->)]; reflexivity. }
  unfold bind at 1. unfold catch at 1, basic_spoof_check, bind at 1, emit, lift.
  cbn [fs trace]. fold (add_events s [EvSpoofCheck captured]).
  destruct (w_spoof W captured) as [b|e]; apply Hv.
Qed.

Lemma test_e001_missing s :
  (forall l, fs s !! dir = Some l -> "E001.jpg" ∉ l)
  \/ (forall l, fs s !! "images/captured" = Some l -> "E001.jpg" ∉ l) ->
  test_e001_verification K W s = (Ret false, s).
Proof.
  intros H. unfold test_e001_verification, bind at 1, os_path_exists_in, ret.
  destruct (fs s !! dir) as [l|] eqn:Hl; [|done].
  destruct (bool_decide ("E001.jpg" ∈ l)) eqn:Hin; [|done].
  apply bool_decide_eq_true in Hin. cbn [negb]. unfold bind at 1.
  destruct H as [H|H]; [by destruct (H l eq_refl)|].
  destruct (fs s !! "images/captured") as [l2|] eqn:Hl2; [|done].
  rewrite bool_decide_eq_false_2; [done|]. by apply H.
Qed.

End ScriptFacts.

(** X19. The test script never raises and always runs the comparison: when
    both [E001] files exist it returns true exactly when the spoof check
    answers true and [verify_face] finds a match; a spoof check that answers
    false or raises only turns the result to false, while the oracle is asked
    exactly as [verify_face] asks it. When one of the files is missing it
    returns false at once. *)
Theorem test_script_runs_the_comparison K W s l l2 :
  fs s !! "images/registered" = Some l -> "E001.jpg" ∈ l ->
  fs s !! "images/captured" = Some l2 -> "E001.jpg" ∈ l2 ->
  exists d,
    fst (verify_face K W "images/captured/E001.jpg" "images/registered" (FACE_MODEL K) s)
    = Ret d
    /\ fst (test_e001_verification K W s)
       = Ret (match w_spoof W "images/captured/E001.jpg" with
              | Ret b => b
              | Raise _ => false
              end && verified d)
    /\ oracle_calls (events_of (test_e001_verification K W) s)
       = oracle_calls (events_of
           (verify_face K W "images/captured/E001.jpg" "images/registered" (FACE_MODEL K))
           s)
    /\ fs (snd (test_e001_verification K W s)) = fs s.
Proof.
  intros Hl Hin Hl2 Hin2.
  destruct (test_e001_run K W s l l2 Hl Hin Hl2 Hin2) as (d & evs & Hv & Ht).
  exists d. rewrite Hv, Ht.
  rewrite (events_of_add _ _ _ _ Hv), (events_of_add _ _ _ _ Ht). done.
Qed.

Lemma test_script_runs_the_comparison_witness :
  exists d,
    fst (verify_face spec_constants
           (table_world false [("images/registered/E001.jpg", answer true 0.2)])
           "images/captured/E001.jpg" "images/registered" "Facenet" e001_disk)
    = Ret d
    /\ fst (test_e001_verification spec_constants
              (table_world false [("images/registered/E001.jpg", answer true 0.2)])
              e001_disk)
       = Ret (false && verified d).
Proof.
  destruct (test_script_runs_the_comparison spec_constants
              (table_world false [("images/registered/E001.jpg", answer true 0.2)])
              e001_disk ["E001.jpg"] ["E001.jpg"]) as (d & Hv & Ht & _).
  - vm_compute; reflexivity.
  - apply list_elem_of_In. by left.
  - vm_compute; reflexivity.
  - apply list_elem_of_In. by left.
  - exists d. split; [exact Hv|exact Ht].
Defined.

(** X20. Without one of its two files the test script returns false without
    calling the spoof check or the oracle. *)
Theorem test_script_needs_both_files K W s :
  (forall l, fs s !! "images/registered" = Some l -> "E001.jpg" ∉ l)
  \/ (forall l, fs s !! "images/captured" = Some l -> "E001.jpg" ∉ l) ->
  test_e001_verification K W s = (Ret false, s).
Proof. apply test_e001_missing. Qed.

Lemma test_script_needs_both_files_witness :
  test_e001_verification spec_constants two_faces (disk ["alice.jpg"])
  = (Ret false, disk ["alice.jpg"]).
Proof.
  apply (test_script_needs_both_files spec_constants two_faces (disk ["alice.jpg"])).
  left. intros l Hl. assert (l = ["alice.jpg"]) as -> by (vm_compute in Hl; congruence).
  intros Hin. apply list_elem_of_In in Hin. destruct Hin as [Heq|[]]. discriminate Heq.
Defined.
